(** * Soundbar Tone Player: a shallow embedding of [soundbar_tone_player.py]

    The development follows the class [TonePlayer]: the settings record and
    its JSON file, one playback attempt, the background timer loop, the
    start / stop / set-interval commands and the autostart toggle.

    Conventions.
    - Python values stored in the settings record are the scalars
      [None], [bool], [int] and [str]; floats, lists and nested objects are
      outside the embedding, and [Json.load] answers [None] on them as it
      does on malformed text.  CPython's optional limit on very long decimal
      conversions is not modelled.
    - A Python [str] is a Rocq [string] whose characters are read as code
      points below 256.
    - Facilities of the interpreter and of the operating system that the
      program only calls (pathlib, soundfile / sounddevice, the access rights
      on the registry key, [int] applied to text) are fields of [host].
    - [icon.notify] and writing a file are taken to succeed; [log] swallows
      its own failures in the source.
    - Time is counted in milliseconds.  A timer thread is a control point of
      [timer_loop]; while the player blocks ([join], [time.sleep]) every
      timer thread advances by the same amount of time.  Events of different
      threads are appended thread by thread. *)

From Stdlib Require Import ZArith Ascii String List Lia Bool.
From stdpp Require Import base option list strings gmap pretty.

Open Scope string_scope.
Open Scope nat_scope.
Open Scope list_scope.

(** ** Python values and the settings dictionary *)

Inductive pyval : Type :=
| PNone
| PBool (b : bool)
| PInt (z : Z)
| PStr (s : string).

(** A [dict] with [str] keys: insertion ordered, keys unique. *)
Definition dict : Type := list (string * pyval).

Fixpoint dict_get (k : string) (d : dict) : option pyval :=
  match d with
  | [] => None
  | (k', v) :: d' => if String.eqb k k' then Some v else dict_get k d'
  end.

(** [d.get(k, dflt)] *)
Definition dict_get_default (k : string) (dflt : pyval) (d : dict) : pyval :=
  match dict_get k d with
  | Some v => v
  | None => dflt
  end.

(** [d[k] = v]: an existing key keeps its position, a new key goes last. *)
Fixpoint dict_set (k : string) (v : pyval) (d : dict) : dict :=
  match d with
  | [] => [(k, v)]
  | (k', v') :: d' =>
      if String.eqb k k' then (k', v) :: d' else (k', v') :: dict_set k v d'
  end.

(** ** The [json] module on flat records *)

Module Json.

Definition quote : ascii := "034"%char.
Definition backslash : ascii := "092"%char.
Definition newline : ascii := "010"%char.
Definition str1 (c : ascii) : string := String c EmptyString.

Definition hex_digit (n : nat) : ascii :=
  match n with
  | 0 => "0" | 1 => "1" | 2 => "2" | 3 => "3" | 4 => "4" | 5 => "5"
  | 6 => "6" | 7 => "7" | 8 => "8" | 9 => "9" | 10 => "a" | 11 => "b"
  | 12 => "c" | 13 => "d" | 14 => "e" | _ => "f"
  end%char.

(** [ensure_ascii=True]: everything outside [' '..'~'], the quote and the
    backslash are escaped. *)
Definition escape_char (c : ascii) : string :=
  let n := nat_of_ascii c in
  if Ascii.eqb c quote then String backslash (str1 quote)
  else if Ascii.eqb c backslash then String backslash (str1 backslash)
  else if n =? 8 then String backslash "b"
  else if n =? 9 then String backslash "t"
  else if n =? 10 then String backslash "n"
  else if n =? 12 then String backslash "f"
  else if n =? 13 then String backslash "r"
  else if (n <? 32) || (126 <? n) then
    String backslash ("u00" +:+ String (hex_digit (n / 16)) (str1 (hex_digit (n mod 16))))
  else str1 c.

Fixpoint escape (s : string) : string :=
  match s with
  | EmptyString => EmptyString
  | String c r => escape_char c +:+ escape r
  end.

Definition dump_str (s : string) : string :=
  String quote (escape s +:+ str1 quote).

Definition dump_scalar (v : pyval) : string :=
  match v with
  | PNone => "null"
  | PBool true => "true"
  | PBool false => "false"
  | PInt z => pretty z
  | PStr s => dump_str s
  end.

Definition dump_item (kv : string * pyval) : string :=
  String newline ("    " +:+ dump_str (fst kv) +:+ ": " +:+ dump_scalar (snd kv)).

Fixpoint dump_items (d : dict) : string :=
  match d with
  | [] => EmptyString
  | [kv] => dump_item kv
  | kv :: d' => dump_item kv +:+ "," +:+ dump_items d'
  end.

(** [json.dump(d, f, indent=4)] *)
Definition dump (d : dict) : string :=
  match d with
  | [] => "{}"
  | _ => "{" +:+ dump_items d +:+ String newline "}"
  end.

(** *** Reading *)

Definition is_ws (c : ascii) : bool :=
  let n := nat_of_ascii c in
  (n =? 32) || (n =? 9) || (n =? 10) || (n =? 13).

Fixpoint skip_ws (s : string) : string :=
  match s with
  | String c r => if is_ws c then skip_ws r else s
  | EmptyString => s
  end.

Definition hex_value (c : ascii) : option nat :=
  let n := nat_of_ascii c in
  if (48 <=? n) && (n <=? 57) then Some (n - 48)
  else if (97 <=? n) && (n <=? 102) then Some (n - 87)
  else if (65 <=? n) && (n <=? 70) then Some (n - 55)
  else None.

Definition simple_escape (c : ascii) : option ascii :=
  let n := nat_of_ascii c in
  if Ascii.eqb c quote then Some quote
  else if Ascii.eqb c backslash then Some backslash
  else if Ascii.eqb c "/" then Some "/"%char
  else if Ascii.eqb c "b" then Some "008"%char
  else if Ascii.eqb c "f" then Some "012"%char
  else if Ascii.eqb c "n" then Some "010"%char
  else if Ascii.eqb c "r" then Some "013"%char
  else if Ascii.eqb c "t" then Some "009"%char
  else None.

(** The text after an opening quote: the decoded string and what follows
    the closing quote.  Control characters are refused (strict mode);
    a [\u] escape is read when its code point is below 256. *)
Fixpoint scan_string (s : string) : option (string * string) :=
  match s with
  | EmptyString => None
  | String c r =>
      if Ascii.eqb c quote then Some (EmptyString, r)
      else if Ascii.eqb c backslash then
        match r with
        | String "u" (String h1 (String h2 (String h3 (String h4 r')))) =>
            match hex_value h1, hex_value h2, hex_value h3, hex_value h4 with
            | Some 0, Some 0, Some a, Some b =>
                match scan_string r' with
                | Some (body, rest) => Some (String (ascii_of_nat (16 * a + b)) body, rest)
                | None => None
                end
            | _, _, _, _ => None
            end
        | String e r' =>
            match simple_escape e, scan_string r' with
            | Some c', Some (body, rest) => Some (String c' body, rest)
            | _, _ => None
            end
        | EmptyString => None
        end
      else if nat_of_ascii c <? 32 then None
      else
        match scan_string r with
        | Some (body, rest) => Some (String c body, rest)
        | None => None
        end
  end.

Definition digit_value (c : ascii) : option Z :=
  let n := nat_of_ascii c in
  if (48 <=? n) && (n <=? 57) then Some (Z.of_nat (n - 48)) else None.

Fixpoint scan_digits (acc : Z) (s : string) : Z * string :=
  match s with
  | String c r =>
      match digit_value c with
      | Some d => scan_digits (10 * acc + d) r
      | None => (acc, s)
      end
  | EmptyString => (acc, s)
  end.

Definition starts_float_tail (s : string) : bool :=
  match s with
  | String c _ => Ascii.eqb c "." || Ascii.eqb c "e" || Ascii.eqb c "E"
  | EmptyString => false
  end.

(** An integer literal [0 | [1-9][0-9]*]; a literal that goes on as a
    float is not read. *)
Definition scan_nat (s : string) : option (Z * string) :=
  match s with
  | String c r =>
      match digit_value c with
      | Some 0%Z => if starts_float_tail r then None else Some (0%Z, r)
      | Some d =>
          let '(n, rest) := scan_digits d r in
          if starts_float_tail rest then None else Some (n, rest)
      | None => None
      end
  | EmptyString => None
  end.

Definition strip_prefix (p s : string) : option string :=
  if String.prefix p s then Some (String.substring (String.length p) (String.length s - String.length p) s)
  else None.

Definition scan_scalar (s : string) : option (pyval * string) :=
  match s with
  | String c r =>
      if Ascii.eqb c quote then
        match scan_string r with
        | Some (body, rest) => Some (PStr body, rest)
        | None => None
        end
      else if Ascii.eqb c "-" then
        match scan_nat r with
        | Some (n, rest) => Some (PInt (- n), rest)
        | None => None
        end
      else if Ascii.eqb c "n" then
        match strip_prefix "null" s with Some rest => Some (PNone, rest) | None => None end
      else if Ascii.eqb c "t" then
        match strip_prefix "true" s with Some rest => Some (PBool true, rest) | None => None end
      else if Ascii.eqb c "f" then
        match strip_prefix "false" s with Some rest => Some (PBool false, rest) | None => None end
      else
        match scan_nat s with
        | Some (n, rest) => Some (PInt n, rest)
        | None => None
        end
  | EmptyString => None
  end.

(** The members of an object, entered where a key is expected.  [fuel]
    bounds the number of members. *)
Fixpoint scan_members (fuel : nat) (acc : dict) (s : string) : option (dict * string) :=
  match fuel with
  | O => None
  | S fuel' =>
      match s with
      | String c r =>
          if Ascii.eqb c quote then
            match scan_string r with
            | Some (key, after_key) =>
                match skip_ws after_key with
                | String colon after_colon =>
                    if Ascii.eqb colon ":" then
                      match scan_scalar (skip_ws after_colon) with
                      | Some (v, after_v) =>
                          let acc' := dict_set key v acc in
                          match skip_ws after_v with
                          | String sep after_sep =>
                              if Ascii.eqb sep "," then scan_members fuel' acc' (skip_ws after_sep)
                              else if Ascii.eqb sep "}" then Some (acc', after_sep)
                              else None
                          | EmptyString => None
                          end
                      | None => None
                      end
                    else None
                | EmptyString => None
                end
            | None => None
            end
          else None
      | EmptyString => None
      end
  end.

Definition scan_object (s : string) : option (dict * string) :=
  match s with
  | String c r =>
      if Ascii.eqb c "{" then
        match skip_ws r with
        | String c' r' =>
            if Ascii.eqb c' "}" then Some ([], r')
            else scan_members (String.length s) [] (skip_ws r)
        | EmptyString => None
        end
      else None
  | EmptyString => None
  end.

(** [json.load(f)] on the text of the file, for a flat record. *)
Definition load (text : string) : option dict :=
  match scan_object (skip_ws text) with
  | Some (d, rest) =>
      match skip_ws rest with
      | EmptyString => Some d
      | String _ _ => None
      end
  | None => None
  end.

End Json.

(** ** Exceptions, results and the host *)

Inductive exn : Type :=
| TypeError
| ValueError
| JSONDecodeError
| RuntimeError (msg : string)
| OtherError (msg : string)
| OSError.

Inductive res (A : Type) : Type :=
| Returns (a : A)
| Raises (e : exn).
Arguments Returns {A} a.
Arguments Raises {A} e.

(** How [sf.read], [sd.play] and [sd.wait] end on a file, and for how long
    they block the calling thread before they do. *)
Inductive audio_end : Type :=
| Completes
| RaisesRuntimeError (msg : string)
| RaisesOther (msg : string).

Record audio_run : Type := AudioRun {
  blocks_ms : N;
  ends : audio_end
}.

(** What the current user may do with the [Run] key. *)
Inductive reg_access : Type :=
| RegDenied
| RegReadOnly
| RegFull.

Record host : Type := Host {
  frozen : bool;                          (* sys.frozen *)
  sys_executable : string;                (* sys.executable *)
  path_parent : string -> string;         (* Path(p).parent *)
  path_join : string -> string -> string; (* Path(a) / b *)
  path_name : string -> string;           (* Path(p).name *)
  path_resolve : string -> string;        (* Path(p).resolve() *)
  soundfile : string -> audio_run;        (* sf.read; sd.play; sd.wait *)
  int_of_text : string -> option Z;       (* int(text) *)
  run_key_access : reg_access
}.

(** Line 1 of the module rebinds [__file__]. *)
Definition module_file : string := "soundbar_tone_player.py".

(** ** What the program shows: log lines and tray notifications *)

Inductive log_line : Type :=
| LCreatedDefaults (path : string)
| LAudioNotFound (path : string)
| LPlaying (name : string)
| LPlayed
| LPlaybackError (msg : string)
| LErrorPlaying (e : exn)
| LTimerStarted
| LTimerStopped
| LRemovedFromStartup
| LAddedToStartup
| LErrorToggling (e : exn).

Inductive notification : Type :=
| NAudioNotFound (name : string)   (* "Error", "Audio file not found: ..." *)
| NPlaybackError                   (* "Playback Error" *)
| NError (e : exn)                 (* "Error", str(e) *)
| NStarted (interval : pyval)      (* "Tone Player Started" *)
| NIntervalUpdated (minutes : Z)   (* "Interval Updated" *)
| NStartupDisabled
| NStartupEnabled
| NStartupError.                   (* "Error", "Could not modify startup settings" *)

Inductive event : Type :=
| Log (l : log_line)
| Notify (n : notification).

(** The labels [create_menu] computes. *)
Record menu : Type := Menu {
  startup_checked : bool;
  bullet_3 : bool;
  bullet_5 : bool;
  bullet_10 : bool
}.

(** ** Threads of [timer_loop] *)

Inductive thread : Type :=
| AtWhile                                            (* about to test [while self.running] *)
| InPlay (wait : N) (after : list event) (secs : nat)
                                                     (* blocked inside [play_audio] *)
| AtFor (todo : nat)                                 (* at the head of the [for], [todo] rounds to go *)
| InSleep (wait : N) (todo : nat)                    (* inside [time.sleep(1)] *)
| Finished                                           (* [timer_loop] returned *)
| Died (e : exn).                                    (* an exception left [timer_loop] *)

Definition is_live (t : thread) : bool :=
  match t with
  | Finished | Died _ => false
  | _ => true
  end.

(** ** The player and its surroundings *)

Record state : Type := State {
  settings_file : string;
  settings : dict;
  running : bool;
  timer_thread : option nat;       (* handle: position in [threads] *)
  icon : option menu;              (* [None] until [run_systray] *)
  files : gmap string string;      (* path -> content *)
  run_entry : option string;       (* the value "SoundbarTonePlayer" under the Run key *)
  threads : list thread;           (* every timer thread started so far *)
  trace : list event;
  clock : N
}.

Definition set_settings (d : dict) (s : state) : state :=
  State (settings_file s) d (running s) (timer_thread s) (icon s) (files s)
        (run_entry s) (threads s) (trace s) (clock s).
Definition set_running (b : bool) (s : state) : state :=
  State (settings_file s) (settings s) b (timer_thread s) (icon s) (files s)
        (run_entry s) (threads s) (trace s) (clock s).
Definition set_timer_thread (o : option nat) (s : state) : state :=
  State (settings_file s) (settings s) (running s) o (icon s) (files s)
        (run_entry s) (threads s) (trace s) (clock s).
Definition set_icon (o : option menu) (s : state) : state :=
  State (settings_file s) (settings s) (running s) (timer_thread s) o (files s)
        (run_entry s) (threads s) (trace s) (clock s).
Definition set_files (f : gmap string string) (s : state) : state :=
  State (settings_file s) (settings s) (running s) (timer_thread s) (icon s) f
        (run_entry s) (threads s) (trace s) (clock s).
Definition set_run_entry (o : option string) (s : state) : state :=
  State (settings_file s) (settings s) (running s) (timer_thread s) (icon s) (files s)
        o (threads s) (trace s) (clock s).
Definition set_threads (ts : list thread) (s : state) : state :=
  State (settings_file s) (settings s) (running s) (timer_thread s) (icon s) (files s)
        (run_entry s) ts (trace s) (clock s).
Definition emit (evs : list event) (s : state) : state :=
  State (settings_file s) (settings s) (running s) (timer_thread s) (icon s) (files s)
        (run_entry s) (threads s) (trace s ++ evs) (clock s).
Definition tick (ms : N) (s : state) : state :=
  State (settings_file s) (settings s) (running s) (timer_thread s) (icon s) (files s)
        (run_entry s) (threads s) (trace s) (clock s + ms)%N.

(** [if self.icon: self.icon.notify(...)] *)
Definition notify_if_icon (s : state) (n : notification) : list event :=
  match icon s with
  | Some _ => [Notify n]
  | None => []
  end.

(** ** Settings *)

Definition get_base_path (h : host) : string :=
  if frozen h then path_parent h (sys_executable h)
  else path_parent h module_file.

Definition settings_path (h : host) (s_file : string) : string :=
  path_join h (get_base_path h) s_file.

Definition default_settings : dict :=
  [("tone_file", PStr "tone.wav"); ("interval_minutes", PInt 10)].

(** [load_settings]: the record, the files afterwards and what was logged. *)
Definition load_settings (h : host) (s_file : string) (fs : gmap string string)
  : res (dict * gmap string string * list event) :=
  let p := settings_path h s_file in
  match fs !! p with
  | None =>
      Returns (default_settings,
               <[p := Json.dump default_settings]> fs,
               [Log (LCreatedDefaults p)])
  | Some text =>
      match Json.load text with
      | Some d => Returns (d, fs, [])
      | None => Raises JSONDecodeError
      end
  end.

Definition save_settings (h : host) (s : state) : state :=
  set_files (<[settings_path h (settings_file s) := Json.dump (settings s)]> (files s)) s.

(** [TonePlayer.__init__] *)
Definition init (h : host) (s_file : string) (fs : gmap string string)
    (entry : option string) : res state :=
  match load_settings h s_file fs with
  | Returns (d, fs', evs) => Returns (State s_file d false None None fs' entry [] evs 0)
  | Raises e => Raises e
  end.

(** ** One playback attempt *)

(** [Path / x] accepts text only. *)
Definition path_div (h : host) (base : string) (x : pyval) : res string :=
  match x with
  | PStr name => Returns (path_join h base name)
  | _ => Raises TypeError
  end.

Definition get_audio_path (h : host) (s : state) : res string :=
  let tone_file := dict_get_default "tone_file" (PStr "tone.wav") (settings s) in
  path_div h (get_base_path h) tone_file.

Definition path_exists (s : state) (p : string) : bool :=
  match files s !! p with
  | Some _ => true
  | None => false
  end.

(** A call of [play_audio]: what it emits before it blocks, for how long it
    blocks, what it emits afterwards, and its return value.  The function
    has no exceptional outcome: both handlers return [False]. *)
Record playback : Type := Playback {
  before : list event;
  blocking : N;
  after : list event;
  returned : bool
}.

Definition play_audio (h : host) (s : state) : playback :=
  match get_audio_path h s with
  | Raises e =>
      Playback (Log (LErrorPlaying e) :: notify_if_icon s (NError e)) 0%N [] false
  | Returns audio_path =>
      if negb (path_exists s audio_path) then
        Playback (Log (LAudioNotFound audio_path)
                    :: notify_if_icon s (NAudioNotFound (path_name h audio_path)))
                 0%N [] false
      else
        let shown := [Log (LPlaying (path_name h audio_path))] in
        let r := soundfile h audio_path in
        match ends r with
        | Completes => Playback shown (blocks_ms r) [Log LPlayed] true
        | RaisesRuntimeError msg =>
            Playback shown (blocks_ms r)
                     (Log (LPlaybackError msg) :: notify_if_icon s NPlaybackError) false
        | RaisesOther msg =>
            Playback shown (blocks_ms r)
                     (Log (LErrorPlaying (OtherError msg))
                        :: notify_if_icon s (NError (OtherError msg))) false
        end
  end.

Definition play_events (p : playback) : list event := before p ++ after p.

(** ** The timer loop *)

Fixpoint str_repeat (s : string) (n : nat) : string :=
  match n with
  | O => EmptyString
  | S n' => s +:+ str_repeat s n'
  end.

(** [interval_minutes * 60] *)
Definition py_times_60 (v : pyval) : res pyval :=
  match v with
  | PInt z => Returns (PInt (z * 60))
  | PBool b => Returns (PInt (Z.b2z b * 60))
  | PStr s => Returns (PStr (str_repeat s 60))
  | PNone => Raises TypeError
  end.

(** [int(interval_seconds)] *)
Definition py_int (h : host) (v : pyval) : res Z :=
  match v with
  | PInt z => Returns z
  | PBool b => Returns (Z.b2z b)
  | PStr s =>
      match int_of_text h s with
      | Some z => Returns z
      | None => Raises ValueError
      end
  | PNone => Raises TypeError
  end.

(** The number of rounds of [for _ in range(int(interval_seconds))], from the
    interval read at the top of a cycle.  The source multiplies before the
    attempt and applies [int] in the header of the [for], after it; here the
    rounds are computed in one go, at the top of the cycle.  The order shows
    only when [int] raises, which takes interval text that is not a number:
    there the source makes one attempt before the thread dies.  Nothing
    below concludes from an exception of [int]. *)
Definition loop_rounds (h : host) (s : state) : res nat :=
  let interval_minutes := dict_get_default "interval_minutes" (PInt 10) (settings s) in
  match py_times_60 interval_minutes with
  | Raises e => Raises e
  | Returns interval_seconds =>
      match py_int h interval_seconds with
      | Raises e => Raises e
      | Returns n => Returns (Z.to_nat n)
      end
  end.

(** [timer_loop h s fuel ms t]: a thread of [timer_loop] standing at [t]
    executes for [ms]
    milliseconds while the rest of the state stays as [s].  The answer is
    the thread afterwards, what it emitted, and the time left over when it
    ended early.  One unit of [fuel] is one control step; a thread that is
    stopped for lack of fuel is returned where it stands. *)
Fixpoint timer_loop (h : host) (s : state) (fuel : nat) (ms : N) (t : thread)
  : thread * list event * N :=
  match t, fuel with
  | Finished, _ => (t, [], ms)
  | Died _, _ => (t, [], ms)
  | _, O => (t, [], 0%N)
  | AtWhile, S fuel' =>
      if running s then
        match loop_rounds h s with
        | Raises e => (Died e, [], ms)
        | Returns secs =>
            let p := play_audio h s in
            let '(t', evs, rest) := timer_loop h s fuel' ms (InPlay (blocking p) (after p) secs) in
            (t', before p ++ evs, rest)
        end
      else (Finished, [], ms)
  | InPlay wait aft secs, S fuel' =>
      if (wait <=? ms)%N then
        let '(t', evs, rest) := timer_loop h s fuel' (ms - wait)%N (AtFor secs) in
        (t', aft ++ evs, rest)
      else (InPlay (wait - ms)%N aft secs, [], 0%N)
  | AtFor O, S fuel' => timer_loop h s fuel' ms AtWhile
  | AtFor (S todo), S fuel' =>
      if running s then timer_loop h s fuel' ms (InSleep 1000 todo)
      else timer_loop h s fuel' ms AtWhile
  | InSleep wait todo, S fuel' =>
      if (wait <=? ms)%N then timer_loop h s fuel' (ms - wait)%N (AtFor todo)
      else (InSleep (wait - ms)%N todo, [], 0%N)
  end.

(** All timer threads execute for [ms] milliseconds; their output is appended
    thread by thread. *)
Definition advance (h : host) (fuel : nat) (ms : N) (s : state) : state :=
  let rs := map (timer_loop h s fuel ms) (threads s) in
  tick ms (emit (concat (map (fun r => snd (fst r)) rs))
                (set_threads (map (fun r => fst (fst r)) rs) s)).

(** [thread.join(timeout)]: the caller is held until thread [i] has ended or
    [timeout] has passed. *)
Definition join (h : host) (fuel : nat) (timeout : N) (i : nat) (s : state) : state :=
  match threads s !! i with
  | Some t =>
      let '(_, _, rest) := timer_loop h s fuel timeout t in
      advance h fuel (timeout - rest)%N s
  | None => s
  end.

(** Three control steps end any thread once [running] is cleared, and the
    player only blocks ([join], [time.sleep(0.5)]) with the flag cleared. *)
Definition flag_down_fuel : nat := 4.

Definition start_timer (h : host) (s : state) : state :=
  if running s then s
  else
    let s1 := set_running true s in
    let s2 := set_threads (threads s1 ++ [AtWhile])
                (set_timer_thread (Some (length (threads s1))) s1) in
    let s3 := emit [Log LTimerStarted] s2 in
    let interval := dict_get_default "interval_minutes" (PInt 10) (settings s3) in
    emit (notify_if_icon s3 (NStarted interval)) s3.

Definition stop_timer (h : host) (s : state) : state :=
  if running s then
    let s1 := set_running false s in
    let s2 := match timer_thread s1 with
              | Some i => join h flag_down_fuel 2000 i s1
              | None => s1
              end in
    emit [Log LTimerStopped] s2
  else s.

(** ** The autostart entry *)

Definition is_startup_enabled (h : host) (s : state) : bool :=
  match run_key_access h with
  | RegDenied => false
  | _ => match run_entry s with Some _ => true | None => false end
  end.

(** [v == n] for an [int] literal [n] *)
Definition py_eq_int (v : pyval) (n : Z) : bool :=
  match v with
  | PInt z => Z.eqb z n
  | PBool b => Z.eqb (Z.b2z b) n
  | _ => false
  end.

Definition create_menu (h : host) (s : state) : menu :=
  let current_interval := dict_get_default "interval_minutes" (PInt 10) (settings s) in
  Menu (is_startup_enabled h s)
       (py_eq_int current_interval 3)
       (py_eq_int current_interval 5)
       (py_eq_int current_interval 10).

(** [if self.icon: self.icon.menu = self.create_menu()] *)
Definition refresh_menu (h : host) (s : state) : state :=
  match icon s with
  | Some _ => set_icon (Some (create_menu h s)) s
  | None => s
  end.

(** [s.replace(old, new)] for a non-empty [old]; [skip] characters of a
    replaced occurrence are still to be passed over. *)
Fixpoint replace_from (old new : string) (skip : nat) (s : string) : string :=
  match s with
  | EmptyString => EmptyString
  | String c r =>
      match skip with
      | S k => replace_from old new k r
      | O =>
          if String.prefix old s
          then new +:+ replace_from old new (String.length old - 1) r
          else String c (replace_from old new 0 r)
      end
  end.

Definition startup_command (h : host) (s : state) : string :=
  let script_path := path_resolve h module_file in
  let python_exe := sys_executable h in
  let python_no_console := replace_from "python.exe" "pythonw.exe" 0 python_exe in
  let python_exe := if path_exists s python_no_console then python_no_console else python_exe in
  let q := Json.str1 Json.quote in
  q +:+ python_exe +:+ q +:+ " " +:+ q +:+ script_path +:+ q.

Definition toggle_startup (h : host) (s : state) : state :=
  match run_key_access h with
  | RegFull =>
      let s1 :=
        if is_startup_enabled h s then
          let s' := set_run_entry None s in
          emit (Log LRemovedFromStartup :: notify_if_icon s' NStartupDisabled) s'
        else
          let s' := set_run_entry (Some (startup_command h s)) s in
          emit (Log LAddedToStartup :: notify_if_icon s' NStartupEnabled) s' in
      refresh_menu h s1
  | _ => emit (Log (LErrorToggling OSError) :: notify_if_icon s NStartupError) s
  end.

(** ** Changing the interval *)

(** [time.sleep(seconds)] in the calling thread *)
Definition sleep (h : host) (ms : N) (s : state) : state :=
  advance h flag_down_fuel ms s.

Definition set_interval (h : host) (minutes : Z) (s : state) : state :=
  let s1 := set_settings (dict_set "interval_minutes" (PInt minutes) (settings s)) s in
  let s2 := save_settings h s1 in
  let was_running := running s2 in
  let s3 := if was_running
            then start_timer h (sleep h 500 (stop_timer h s2))
            else refresh_menu h s2 in
  emit (notify_if_icon s3 (NIntervalUpdated minutes)) s3.

(** [run_systray] up to the blocking [icon.run()] *)
Definition run_systray (h : host) (s : state) : state :=
  let menu := create_menu h s in
  start_timer h (set_icon (Some menu) s).

(** Time passing while the player is not executing a command. *)
Definition idle (h : host) (fuel : nat) (ms : N) (s : state) : state :=
  advance h fuel ms s.

Inductive command : Type :=
| Start
| Stop
| SetInterval (minutes : Z).

Definition exec (h : host) (c : command) (s : state) : state :=
  match c with
  | Start => start_timer h s
  | Stop => stop_timer h s
  | SetInterval v => set_interval h v s
  end.

(** States the player can be in after [__init__] and a series of commands. *)
Inductive reachable (h : host) : state -> Prop :=
| reach_init s_file fs entry s :
    init h s_file fs entry = Returns s -> reachable h s
| reach_exec c s :
    reachable h s -> reachable h (exec h c s).

Fixpoint count_if {A : Type} (f : A -> bool) (l : list A) : nat :=
  match l with
  | [] => 0
  | x :: l' => (if f x then 1 else 0) + count_if f l'
  end.

(** The number of [timer_loop] threads that have not ended. *)
Definition live_threads (s : state) : nat := count_if is_live (threads s).

(** ** A concrete installation, used to exercise the definitions *)

Module Demo.

(** A script started from its own directory; the tone lasts five seconds. *)
Definition host0 : host :=
  Host false "C:/Python/python.exe"
       (fun _ => ".")
       (fun a b => a +:+ "/" +:+ b)
       (fun p => p)
       (fun p => "C:/app/" +:+ p)
       (fun _ => AudioRun 5000 Completes)
       (fun _ => None)
       RegFull.

Definition cfg : string := "player_settings.json".
Definition cfg_path : string := "./player_settings.json".

Definition q : string := Json.str1 Json.quote.

(** A settings file that only names the tone: one line,
    an object with the single key [tone_file]. *)
Definition partial_text : string :=
  "{" +:+ q +:+ "tone_file" +:+ q +:+ ": " +:+ q +:+ "x.wav" +:+ q +:+ "}".

Definition partial_files : gmap string string := {[ cfg_path := partial_text ]}.

(** The player right after [TonePlayer()] on an empty directory. *)
Definition fresh : state :=
  State cfg default_settings false None None
        {[ cfg_path := Json.dump default_settings ]} None []
        [Log (LCreatedDefaults cfg_path)] 0.

(** The same directory with the tone in place, the tray icon shown. *)
Definition with_tone : state :=
  State cfg default_settings false None (Some (Menu false false false true))
        {[ cfg_path := Json.dump default_settings; "./tone.wav" := "RIFF" ]} None []
        [] 0.

(** Half a second after the tone of the first cycle: the loop thread is
    0.3 s into the first of its 600 one-second sleeps. *)
Definition waiting : state :=
  State cfg default_settings true (Some 0) (Some (Menu false false false true))
        {[ cfg_path := Json.dump default_settings; "./tone.wav" := "RIFF" ]} None
        [InSleep 700 599]
        [Log LTimerStarted; Notify (NStarted (PInt 10));
         Log (LPlaying "./tone.wav"); Log LPlayed] 5300.

(** A running player whose tone file is missing. *)
Definition no_tone : state :=
  State cfg default_settings true (Some 0) (Some (Menu false false false true))
        {[ cfg_path := Json.dump default_settings ]} None
        [AtWhile] [Log LTimerStarted; Notify (NStarted (PInt 10))] 0.

(** A stopped player whose settings file held the empty object. *)
Definition bare : state :=
  State cfg [] false None (Some (Menu false false false true))
        {[ cfg_path := "{}" ]} None [] [] 0.

(** One second into a five-second tone, with the interval at 3 minutes. *)
Definition mid_tone : state :=
  State cfg [("tone_file", PStr "tone.wav"); ("interval_minutes", PInt 3)]
        true (Some 0) (Some (Menu false true false false))
        {[ cfg_path := Json.dump [("tone_file", PStr "tone.wav"); ("interval_minutes", PInt 3)];
           "./tone.wav" := "RIFF" ]} None
        [InPlay 4000 [Log LPlayed] 180]
        [Log LTimerStarted; Notify (NStarted (PInt 3)); Log (LPlaying "./tone.wav")] 1000.

(** A tray session on the default settings, 0.3 s into the first wait,
    in which "Every 3 minutes" has just been picked. *)
Definition picked_3 : state := set_interval host0 3 waiting.

(** A settings file whose tone is a number, and the player built on it. *)
Definition odd_tone : state :=
  State cfg [("tone_file", PInt 5); ("interval_minutes", PInt 10)]
        true (Some 0) (Some (Menu false false false true))
        {[ cfg_path := Json.dump [("tone_file", PInt 5); ("interval_minutes", PInt 10)] ]}
        None [AtWhile] [] 0.

(** A settings file with a zero interval and no tone file. *)
Definition zero_interval : state :=
  State cfg [("tone_file", PStr "tone.wav"); ("interval_minutes", PInt 0)]
        true (Some 0) None
        {[ cfg_path := Json.dump [("tone_file", PStr "tone.wav"); ("interval_minutes", PInt 0)] ]}
        None [AtWhile] [] 0.

(** A settings file with a null interval, and the tray started on it. *)
Definition null_started : state :=
  State cfg [("tone_file", PStr "tone.wav"); ("interval_minutes", PNone)]
        true (Some 0) (Some (Menu false false false false))
        {[ cfg_path := Json.dump [("tone_file", PStr "tone.wav"); ("interval_minutes", PNone)] ]}
        None [AtWhile] [Log LTimerStarted; Notify (NStarted PNone)] 0.

End Demo.

(** ** Observations on traces and threads, and the readings under test *)

(** The default record as [json.dump(..., indent=4)] lays it out: one key
    per line, four spaces of indentation. *)
Definition default_text : string :=
  let q := Json.str1 Json.quote in
  let nl := Json.str1 Json.newline in
  "{" +:+ nl +:+
  "    " +:+ q +:+ "tone_file" +:+ q +:+ ": " +:+ q +:+ "tone.wav" +:+ q +:+ "," +:+ nl +:+
  "    " +:+ q +:+ "interval_minutes" +:+ q +:+ ": 10" +:+ nl +:+
  "}".

(** The reading of the specification that C2 puts forward: whenever the
    settings file parses, the record [load_settings] returns has both fields
    and the file holds that completed record afterwards. *)
Definition load_fills_in_defaults (h : host) (s_file : string) (fs : gmap string string) : Prop :=
  forall text d,
    fs !! settings_path h s_file = Some text ->
    Json.load text = Some d ->
    exists d' (fs' : gmap string string) evs,
      load_settings h s_file fs = Returns (d', fs', evs)
      /\ is_Some (dict_get "tone_file" d')
      /\ is_Some (dict_get "interval_minutes" d')
      /\ fs' !! settings_path h s_file = Some (Json.dump d').

Definition is_not_found_notification (e : event) : bool :=
  match e with
  | Notify (NAudioNotFound _) => true
  | _ => false
  end.

Definition is_not_found_log (e : event) : bool :=
  match e with
  | Log (LAudioNotFound _) => true
  | _ => false
  end.

(** C4 as the specification words it: a missing audio file makes
    [play_audio] return [False] and emit exactly one not-found
    notification. *)
Definition missing_file_notifies_once (h : host) (s : state) : Prop :=
  forall p,
    get_audio_path h s = Returns p ->
    path_exists s p = false ->
    returned (play_audio h s) = false
    /\ count_if is_not_found_notification (play_events (play_audio h s)) = 1.

Definition entry_present (s : state) : bool :=
  match run_entry s with
  | Some _ => true
  | None => false
  end.

(** What [timer_loop] comes to once the flag is cleared. *)
Definition wind_down (ms : N) (t : thread) : thread * list event * N :=
  match t with
  | AtWhile | AtFor _ => (Finished, [], ms)
  | InPlay w aft secs =>
      if (w <=? ms)%N then (Finished, aft, (ms - w)%N)
      else (InPlay (w - ms)%N aft secs, [], 0%N)
  | InSleep w todo =>
      if (w <=? ms)%N then (Finished, [], (ms - w)%N)
      else (InSleep (w - ms)%N todo, [], 0%N)
  | Finished | Died _ => (t, [], ms)
  end.

(** C8 as the specification words it: with the flag set, nothing that
    happens in a cycle ends the loop thread. *)
Definition only_stop_ends_loop (h : host) (s : state) : Prop :=
  running s = true ->
  forall fuel ms t,
    is_live t = true -> is_live (fst (fst (timer_loop h s fuel ms t))) = true.

(** C6 as the specification words it. *)
Definition handle_iff_running (s : state) : Prop :=
  timer_thread s <> None <-> running s = true.

(** How long a thread still blocks once the flag is cleared. *)
Definition wind_time (t : thread) : N :=
  match t with
  | InPlay w _ _ | InSleep w _ => w
  | _ => 0%N
  end.

Definition is_playing_log (e : event) : bool :=
  match e with
  | Log (LPlaying _) => true
  | _ => false
  end.

(** ** The rest of the class: the test run, the entry point, the menu *)

(** One member read by [json.load] goes into the dictionary built so far. *)
Definition set_pair (acc : dict) (kv : string * pyval) : dict :=
  dict_set (fst kv) (snd kv) acc.

(** No key occurs twice: what every Python [dict] satisfies. *)
Fixpoint distinct_keys (d : dict) : Prop :=
  match d with
  | [] => True
  | (k, _) :: d' => dict_get k d' = None /\ distinct_keys d'
  end.

(** The characters that follow a value in the text [json.dump] writes. *)
Definition ends_value (c : ascii) : Prop := c = ","%char \/ c = Json.newline.

Definition is_notification (e : event) : bool :=
  match e with
  | Notify _ => true
  | Log _ => false
  end.

(** [test_play]: one call of [play_audio] in the calling thread, and the
    verdict that is printed.  The banner lines are not modelled. *)
Definition test_play (h : host) (s : state) : state * bool :=
  let p := play_audio h s in
  (tick (blocking p) (emit (play_events p) s), returned p).

Inductive run_mode : Type :=
| TestMode
| HelpMode
| TrayMode.

Definition str_in (a : string) (l : list string) : bool :=
  existsb (String.eqb a) l.

(** The test on [sys.argv] in [main]. *)
Definition mode_of (argv : list string) : run_mode :=
  match argv with
  | _ :: a :: _ =>
      if str_in a ["--test"; "-t"] then TestMode
      else if str_in a ["--help"; "-h"] then HelpMode
      else TrayMode
  | _ => TrayMode
  end.

Inductive main_result : Type :=
| RanTest (s : state) (success : bool)
| ShowedHelp (s : state)
| InTray (s : state).      (* the state in which [icon.run()] is entered *)

Definition final_state (r : main_result) : state :=
  match r with
  | RanTest s _ | ShowedHelp s | InTray s => s
  end.

(** [main]: the player is built before the arguments are looked at. *)
Definition main (h : host) (argv : list string) (fs : gmap string string)
    (entry : option string) : res main_result :=
  match init h "player_settings.json" fs entry with
  | Raises e => Raises e
  | Returns player =>
      match mode_of argv with
      | TestMode => let '(s, ok) := test_play h player in Returns (RanTest s ok)
      | HelpMode => Returns (ShowedHelp player)
      | TrayMode => Returns (InTray (run_systray h player))
      end
  end.

Definition on_set_interval_3 (h : host) (s : state) : state := set_interval h 3 s.
Definition on_set_interval_5 (h : host) (s : state) : state := set_interval h 5 s.
Definition on_set_interval_10 (h : host) (s : state) : state := set_interval h 10 s.

(** [on_quit], up to [icon.stop()] which ends the program. *)
Definition on_quit (h : host) (s : state) : state := stop_timer h s.

(** The menu entries that change the player and leave it alive. *)
Inductive menu_item : Type :=
| ItemStartup
| ItemInterval3
| ItemInterval5
| ItemInterval10.

Definition click (h : host) (item : menu_item) (s : state) : state :=
  match item with
  | ItemStartup => toggle_startup h s
  | ItemInterval3 => on_set_interval_3 h s
  | ItemInterval5 => on_set_interval_5 h s
  | ItemInterval10 => on_set_interval_10 h s
  end.

(** The states of a tray session: [main] without arguments, then any
    series of menu clicks with time passing in between. *)
Inductive tray_reachable (h : host) : state -> Prop :=
| tray_started fs entry s0 :
    init h "player_settings.json" fs entry = Returns s0 ->
    tray_reachable h (run_systray h s0)
| tray_click item s :
    tray_reachable h s -> tray_reachable h (click h item s)
| tray_idle fuel ms s :
    tray_reachable h s -> tray_reachable h (idle h fuel ms s).

Definition interval_of (item : menu_item) : Z :=
  match item with
  | ItemInterval3 => 3
  | ItemInterval5 => 5
  | _ => 10
  end.

(** The settings file holds the record the player has in memory. *)
Definition on_disk (h : host) (s : state) : Prop :=
  distinct_keys (settings s)
  /\ exists text,
       files s !! settings_path h (settings_file s) = Some text
       /\ Json.load text = Some (settings s).

(** Two runs of [main] on an empty directory. *)
Module Runs.

Definition or_help (r : res main_result) : main_result :=
  match r with
  | Returns x => x
  | Raises _ => ShowedHelp Demo.fresh
  end.

Definition test_run : main_result :=
  or_help (main Demo.host0 ["soundbar_tone_player.py"; "-t"] ∅ None).

Definition tray_run : main_result :=
  or_help (main Demo.host0 ["soundbar_tone_player.py"; "--verbose"; "--test"] ∅ None).

End Runs.

(** * Properties *)

(** ** The JSON reader never stops for lack of fuel *)

Module JsonFacts.
Import Json.

Lemma skip_ws_length s : String.length (skip_ws s) <= String.length s.
Proof.
  induction s as [| c r IH]; cbn; [lia |].
  destruct (is_ws c); cbn; lia.
Qed.

Lemma scan_string_length_bounded n : forall s body rest,
  String.length s <= n ->
  scan_string s = Some (body, rest) ->
  String.length rest <= String.length s.
Proof.
  induction n as [| n IH]; intros s body rest Hn Hscan.
  - destruct s; [discriminate Hscan | cbn in Hn; lia].
  - destruct s as [| c r]; [discriminate Hscan |].
    cbn [scan_string] in Hscan. cbn [String.length] in *.
    destruct (Ascii.eqb c quote).
    { injection Hscan as _ <-. lia. }
    destruct (Ascii.eqb c backslash).
    + destruct r as [| e r']; [discriminate Hscan |].
      assert (Hsimple : forall x,
                match simple_escape e, scan_string r' with
                | Some c', Some (body0, rest0) => Some (String c' body0, rest0)
                | _, _ => None
                end = Some x ->
                String.length (snd x) <= String.length r').
      { intros [b0 r0] Hx. destruct (simple_escape e); [| discriminate Hx].
        destruct (scan_string r') as [[b1 r1] |] eqn:Hr'; [| discriminate Hx].
        injection Hx as _ <-. cbn. eapply IH; [| exact Hr']. cbn in Hn. lia. }
      destruct (Ascii.eqb e "u") eqn:He.
      * apply Ascii.eqb_eq in He. subst e.
        destruct r' as [| h1 [| h2 [| h3 [| h4 r'']]]];
          try (specialize (Hsimple _ Hscan); cbn in *; lia).
        destruct (hex_value h1) as [[| ?] |]; try discriminate Hscan.
        destruct (hex_value h2) as [[| ?] |]; try discriminate Hscan.
        destruct (hex_value h3) as [a |]; try discriminate Hscan.
        destruct (hex_value h4) as [b |]; try discriminate Hscan.
        destruct (scan_string r'') as [[b1 r1] |] eqn:Hr''; [| discriminate Hscan].
        injection Hscan as _ <-.
        assert (String.length r1 <= String.length r'')
          by (eapply IH; [| exact Hr'']; cbn in Hn; lia).
        cbn. lia.
      * assert (Hgen : match simple_escape e, scan_string r' with
                       | Some c', Some (body0, rest0) => Some (String c' body0, rest0)
                       | _, _ => None
                       end = Some (body, rest)).
        { destruct e as [[] [] [] [] [] [] [] []]; try exact Hscan; discriminate He. }
        specialize (Hsimple _ Hgen). cbn in *. lia.
    + destruct (nat_of_ascii c <? 32); [discriminate Hscan |].
      destruct (scan_string r) as [[b1 r1] |] eqn:Hr; [| discriminate Hscan].
      injection Hscan as _ <-.
      assert (String.length r1 <= String.length r) by (eapply IH; [| exact Hr]; lia).
      lia.
Qed.

Lemma scan_string_length s body rest :
  scan_string s = Some (body, rest) -> String.length rest <= String.length s.
Proof. apply (scan_string_length_bounded (String.length s)). lia. Qed.

Lemma scan_digits_length s : forall acc,
  String.length (snd (scan_digits acc s)) <= String.length s.
Proof.
  induction s as [| c r IH]; intros acc; cbn; [lia |].
  destruct (digit_value c); cbn; [specialize (IH (10 * acc + z)%Z) |]; lia.
Qed.

Lemma scan_nat_length s n rest :
  scan_nat s = Some (n, rest) -> String.length rest <= String.length s.
Proof.
  unfold scan_nat. destruct s as [| c r]; [discriminate |].
  destruct (digit_value c) as [d |]; [| discriminate].
  assert (Hd : forall x, (let '(n0, rest0) := scan_digits d r in
                          if starts_float_tail rest0 then None else Some (n0, rest0)) = Some x ->
                         String.length (snd x) <= String.length r).
  { intros [n0 r0] Hx. pose proof (scan_digits_length r d) as Hlen.
    destruct (scan_digits d r) as [n1 r1]. destruct (starts_float_tail r1); [discriminate |].
    injection Hx as _ <-. exact Hlen. }
  destruct d as [| d | d]; intros Hscan.
  - destruct (starts_float_tail r); [discriminate |]. injection Hscan as _ <-. cbn. lia.
  - specialize (Hd _ Hscan). cbn in *. lia.
  - specialize (Hd _ Hscan). cbn in *. lia.
Qed.

Lemma substring_length s : forall n m, String.length (substring n m s) <= m.
Proof.
  induction s as [| c r IH]; intros [| n] [| m]; cbn; try lia.
  - specialize (IH 0 m). lia.
  - specialize (IH n 0). lia.
  - specialize (IH n (S m)). lia.
Qed.

Lemma strip_prefix_length p s rest :
  strip_prefix p s = Some rest -> String.length rest <= String.length s.
Proof.
  unfold strip_prefix. destruct (String.prefix p s); [| discriminate].
  intros [= <-].
  pose proof (substring_length s (String.length p) (String.length s - String.length p)). lia.
Qed.

Lemma scan_scalar_length s v rest :
  scan_scalar s = Some (v, rest) -> String.length rest <= String.length s.
Proof.
  unfold scan_scalar. destruct s as [| c r]; [discriminate |].
  destruct (Ascii.eqb c quote).
  { destruct (scan_string r) as [[b r1] |] eqn:Hr; [| discriminate].
    intros [= _ <-]. apply scan_string_length in Hr. cbn. lia. }
  destruct (Ascii.eqb c "-").
  { destruct (scan_nat r) as [[n r1] |] eqn:Hr; [| discriminate].
    intros [= _ <-]. apply scan_nat_length in Hr. cbn. lia. }
  destruct (Ascii.eqb c "n").
  { destruct (strip_prefix "null" (String c r)) as [r1 |] eqn:Hr; [| discriminate].
    intros [= _ <-]. now apply strip_prefix_length in Hr. }
  destruct (Ascii.eqb c "t").
  { destruct (strip_prefix "true" (String c r)) as [r1 |] eqn:Hr; [| discriminate].
    intros [= _ <-]. now apply strip_prefix_length in Hr. }
  destruct (Ascii.eqb c "f").
  { destruct (strip_prefix "false" (String c r)) as [r1 |] eqn:Hr; [| discriminate].
    intros [= _ <-]. now apply strip_prefix_length in Hr. }
  destruct (scan_nat (String c r)) as [[n r1] |] eqn:Hr; [| discriminate].
  intros [= _ <-]. now apply scan_nat_length in Hr.
Qed.

(** Any two amounts of fuel above the length of the text give the same
    members: the fuel [scan_object] hands over is always enough. *)
Lemma scan_members_fuel f1 : forall f2 acc s,
  String.length s < f1 -> String.length s < f2 ->
  scan_members f1 acc s = scan_members f2 acc s.
Proof.
  induction f1 as [| f1 IH]; intros f2 acc s H1 H2; [lia |].
  destruct f2 as [| f2]; [lia |].
  cbn [scan_members].
  destruct s as [| c r]; [reflexivity |].
  destruct (Ascii.eqb c quote); [| reflexivity].
  destruct (scan_string r) as [[key after_key] |] eqn:Hkey; [| reflexivity].
  apply scan_string_length in Hkey.
  pose proof (skip_ws_length after_key) as Hws1.
  destruct (skip_ws after_key) as [| colon after_colon]; [reflexivity |].
  destruct (Ascii.eqb colon ":"); [| reflexivity].
  pose proof (skip_ws_length after_colon) as Hws2.
  destruct (scan_scalar (skip_ws after_colon)) as [[v after_v] |] eqn:Hv; [| reflexivity].
  apply scan_scalar_length in Hv.
  pose proof (skip_ws_length after_v) as Hws3.
  destruct (skip_ws after_v) as [| sep after_sep]; [reflexivity |].
  destruct (Ascii.eqb sep ","); [| reflexivity].
  pose proof (skip_ws_length after_sep) as Hws4.
  cbn [String.length] in *.
  apply IH; lia.
Qed.

End JsonFacts.

(** ** Settings file *)

Lemma dump_default_settings : Json.dump default_settings = default_text.
Proof. reflexivity. Qed.

Lemma load_default_text : Json.load default_text = Some default_settings.
Proof. vm_compute. reflexivity. Qed.

Lemma load_settings_existing h s_file (fs : gmap string string) text d :
  fs !! settings_path h s_file = Some text ->
  Json.load text = Some d ->
  load_settings h s_file fs = Returns (d, fs, []).
Proof.
  intros Hfile Hparse. unfold load_settings. rewrite Hfile, Hparse. reflexivity.
Qed.

(** C3. With no settings file at the resolved path, [load_settings] creates
    it holding exactly the pretty-printed default record
    (tone_file = tone.wav, interval_minutes = 10), touches no other file,
    and returns that record. *)
Theorem load_settings_creates_defaults h s_file (fs : gmap string string) :
  fs !! settings_path h s_file = None ->
  exists fs' : gmap string string,
    load_settings h s_file fs
      = Returns ([("tone_file", PStr "tone.wav"); ("interval_minutes", PInt 10)],
                 fs', [Log (LCreatedDefaults (settings_path h s_file))])
    /\ fs' !! settings_path h s_file = Some default_text
    /\ Json.load default_text
       = Some [("tone_file", PStr "tone.wav"); ("interval_minutes", PInt 10)]
    /\ forall p, p <> settings_path h s_file -> fs' !! p = fs !! p.
Proof.
  intros Hnone.
  exists (<[settings_path h s_file := Json.dump default_settings]> fs).
  split; [| split; [| split]].
  - unfold load_settings. rewrite Hnone. reflexivity.
  - rewrite lookup_insert_eq. now rewrite dump_default_settings.
  - exact load_default_text.
  - intros p Hp. now rewrite lookup_insert_ne.
Qed.

Lemma load_settings_creates_defaults_witness :
  exists fs' : gmap string string,
    load_settings Demo.host0 Demo.cfg ∅
      = Returns ([("tone_file", PStr "tone.wav"); ("interval_minutes", PInt 10)],
                 fs', [Log (LCreatedDefaults (settings_path Demo.host0 Demo.cfg))])
    /\ fs' !! settings_path Demo.host0 Demo.cfg = Some default_text
    /\ Json.load default_text
       = Some [("tone_file", PStr "tone.wav"); ("interval_minutes", PInt 10)]
    /\ forall p, p <> settings_path Demo.host0 Demo.cfg -> fs' !! p = (∅ : gmap string string) !! p.
Proof.
  apply (load_settings_creates_defaults Demo.host0 Demo.cfg ∅).
  reflexivity.
Defined.

Lemma partial_text_parses :
  Json.load Demo.partial_text = Some [("tone_file", PStr "x.wav")].
Proof. vm_compute. reflexivity. Qed.

Lemma partial_files_lookup :
  Demo.partial_files !! settings_path Demo.host0 Demo.cfg = Some Demo.partial_text.
Proof. reflexivity. Qed.

(** C2, refuted as stated: a settings file that only names the tone is
    returned as it is, without [interval_minutes], and is not rewritten. *)
Lemma load_settings_keeps_partial_record :
  ~ load_fills_in_defaults Demo.host0 Demo.cfg Demo.partial_files.
Proof.
  intros Hclaim.
  destruct (Hclaim _ _ partial_files_lookup partial_text_parses)
    as (d' & fs' & evs & Hload & _ & [v Hv] & _).
  rewrite (load_settings_existing _ _ _ _ _ partial_files_lookup partial_text_parses) in Hload.
  injection Hload as <- _ _. discriminate Hv.
Qed.

(** C2, amended.  For a settings file that parses, [load_settings] returns
    the parsed record unchanged (a field absent from the file stays absent
    from the record), writes nothing and logs nothing. *)
Theorem load_settings_returns_parsed_record h s_file (fs : gmap string string) text d :
  fs !! settings_path h s_file = Some text ->
  Json.load text = Some d ->
  load_settings h s_file fs = Returns (d, fs, []).
Proof. apply load_settings_existing. Qed.

Lemma load_settings_returns_parsed_record_witness :
  load_settings Demo.host0 Demo.cfg Demo.partial_files
    = Returns ([("tone_file", PStr "x.wav")], Demo.partial_files, []).
Proof.
  apply (load_settings_returns_parsed_record Demo.host0 Demo.cfg Demo.partial_files
           Demo.partial_text [("tone_file", PStr "x.wav")]).
  - reflexivity.
  - vm_compute. reflexivity.
Defined.

(** ** One playback attempt *)

(** C4, refuted as stated: before [run_systray] has created the icon (the
    [--test] mode), a missing file is logged but nothing is notified. *)
Lemma missing_file_without_icon_is_silent :
  ~ missing_file_notifies_once Demo.host0 Demo.fresh.
Proof.
  intros Hclaim.
  destruct (Hclaim "./tone.wav" eq_refl eq_refl) as [_ Hcount].
  discriminate Hcount.
Qed.

(** C4, amended.  When the resolved audio file does not exist, [play_audio]
    returns [False] without blocking and without an exception reaching its
    caller; it writes exactly one not-found log line, and emits exactly one
    not-found notification when the tray icon exists and none when it does
    not. *)
Theorem play_audio_missing_file h s p :
  get_audio_path h s = Returns p ->
  path_exists s p = false ->
  play_audio h s
    = Playback (Log (LAudioNotFound p)
                  :: match icon s with
                     | Some _ => [Notify (NAudioNotFound (path_name h p))]
                     | None => []
                     end)
               0%N [] false
  /\ returned (play_audio h s) = false
  /\ count_if is_not_found_log (play_events (play_audio h s)) = 1
  /\ count_if is_not_found_notification (play_events (play_audio h s))
     = match icon s with Some _ => 1 | None => 0 end.
Proof.
  intros Hpath Hmissing.
  assert (Hplay : play_audio h s
    = Playback (Log (LAudioNotFound p)
                  :: match icon s with
                     | Some _ => [Notify (NAudioNotFound (path_name h p))]
                     | None => []
                     end) 0%N [] false).
  { unfold play_audio. rewrite Hpath, Hmissing. reflexivity. }
  rewrite Hplay. unfold play_events. cbn.
  destruct (icon s); cbn; auto.
Qed.

Lemma play_audio_missing_file_witness :
  play_audio Demo.host0 Demo.fresh
    = Playback [Log (LAudioNotFound "./tone.wav")] 0%N [] false
  /\ returned (play_audio Demo.host0 Demo.fresh) = false
  /\ count_if is_not_found_log (play_events (play_audio Demo.host0 Demo.fresh)) = 1
  /\ count_if is_not_found_notification (play_events (play_audio Demo.host0 Demo.fresh)) = 0.
Proof.
  apply (play_audio_missing_file Demo.host0 Demo.fresh "./tone.wav"); reflexivity.
Defined.

(** ** Autostart *)

Lemma run_entry_refresh_menu h s : run_entry (refresh_menu h s) = run_entry s.
Proof. unfold refresh_menu. now destruct (icon s). Qed.

(** One toggle: with full access to the key the entry changes side, with
    less the entry is left alone. *)
Lemma toggle_startup_entry h s :
  entry_present (toggle_startup h s)
  = match run_key_access h with
    | RegFull => negb (entry_present s)
    | _ => entry_present s
    end.
Proof.
  unfold toggle_startup, entry_present, is_startup_enabled.
  destruct (run_key_access h); try reflexivity.
  rewrite run_entry_refresh_menu.
  destruct (run_entry s); reflexivity.
Qed.

(** C9. Whether the entry starts present or absent, and whatever access the
    user has to the key, two toggles in a row bring the entry back to where
    it was. *)
Theorem toggle_startup_twice h s :
  entry_present (toggle_startup h (toggle_startup h s)) = entry_present s.
Proof.
  rewrite !toggle_startup_entry.
  destruct (run_key_access h); try reflexivity.
  apply negb_involutive.
Qed.

(** ** The timer thread *)

Section TimerLoop.

Variable h : host.
Variable s : state.

Lemma timer_loop_flag_down fuel ms t :
  running s = false -> 3 <= fuel -> timer_loop h s fuel ms t = wind_down ms t.
Proof.
  intros Hflag Hfuel.
  destruct fuel as [| [| [| fuel]]]; try lia.
  destruct t as [| w aft secs | [| todo] | w todo | |]; simpl; rewrite ?Hflag; try reflexivity.
  - destruct (w <=? ms)%N; [| reflexivity].
    destruct secs; simpl; rewrite ?Hflag; now rewrite app_nil_r.
  - destruct (w <=? ms)%N; [| reflexivity].
    destruct todo; simpl; now rewrite ?Hflag.
Qed.

Hypothesis Hrunning : running s = true.

(** A wait of [n] rounds lasts [n] seconds. *)
Lemma timer_loop_sleep_rounds n fuel ms :
  timer_loop h s (2 * n + 1 + fuel) (1000 * N.of_nat n + ms)%N (AtFor n)
  = timer_loop h s fuel ms AtWhile.
Proof.
  revert ms. induction n as [| n IH]; intros ms.
  - simpl (2 * 0 + 1 + fuel). replace (1000 * N.of_nat 0 + ms)%N with ms by lia.
    reflexivity.
  - replace (2 * S n + 1 + fuel) with (S (S (2 * n + 1 + fuel))) by lia.
    cbn [timer_loop]. rewrite Hrunning.
    assert (Hle : (1000 <=? 1000 * N.of_nat (S n) + ms)%N = true)
      by (apply N.leb_le; lia).
    rewrite Hle.
    replace (1000 * N.of_nat (S n) + ms - 1000)%N with (1000 * N.of_nat n + ms)%N by lia.
    apply IH.
Qed.

(** [j] whole rounds and [r] milliseconds into the wait, the thread is
    inside the sleep of round [j]. *)
Lemma timer_loop_inside_wait j : forall n r fuel,
  j < n -> (r < 1000)%N -> 2 * j + 2 <= fuel ->
  timer_loop h s fuel (1000 * N.of_nat j + r)%N (AtFor n)
  = (InSleep (1000 - r)%N (n - j - 1), [], 0%N).
Proof.
  induction j as [| j IH]; intros n r fuel Hj Hr Hfuel.
  - destruct n as [| n]; [lia |].
    destruct fuel as [| [| fuel]]; try lia.
    cbn [timer_loop]. rewrite Hrunning.
    replace (1000 * N.of_nat 0 + r)%N with r by lia.
    assert (Hlt : (1000 <=? r)%N = false) by (apply N.leb_gt; lia).
    rewrite Hlt. replace (S n - 0 - 1) with n by lia. reflexivity.
  - destruct n as [| n]; [lia |].
    destruct fuel as [| [| fuel]]; try lia.
    cbn [timer_loop]. rewrite Hrunning.
    assert (Hle : (1000 <=? 1000 * N.of_nat (S j) + r)%N = true)
      by (apply N.leb_le; lia).
    rewrite Hle.
    replace (1000 * N.of_nat (S j) + r - 1000)%N with (1000 * N.of_nat j + r)%N by lia.
    rewrite IH by lia. replace (S n - S j - 1) with (n - j - 1) by lia. reflexivity.
Qed.

Variable secs : nat.
Hypothesis Hrounds : loop_rounds h s = Returns secs.

(** One full cycle: the attempt, then the wait, then the next test of the
    flag. *)
Lemma timer_loop_cycle fuel ms :
  timer_loop h s (2 * secs + 3 + fuel)
      (blocking (play_audio h s) + 1000 * N.of_nat secs + ms)%N AtWhile
  = let '(t, evs, rest) := timer_loop h s fuel ms AtWhile in
    (t, play_events (play_audio h s) ++ evs, rest).
Proof.
  replace (2 * secs + 3 + fuel) with (S (S (2 * secs + 1 + fuel))) by lia.
  cbn [timer_loop]. rewrite Hrunning, Hrounds.
  set (p := play_audio h s).
  assert (Hle : (blocking p <=? blocking p + 1000 * N.of_nat secs + ms)%N = true)
    by (apply N.leb_le; lia).
  rewrite Hle.
  replace (blocking p + 1000 * N.of_nat secs + ms - blocking p)%N
    with (1000 * N.of_nat secs + ms)%N by lia.
  rewrite timer_loop_sleep_rounds.
  destruct (timer_loop h s fuel ms AtWhile) as [[t evs] rest].
  unfold play_events. now rewrite <- app_assoc.
Qed.

(** With the flag set and a usable interval no step ends the thread. *)
Lemma timer_loop_keeps_live fuel : forall ms t,
  is_live t = true -> is_live (fst (fst (timer_loop h s fuel ms t))) = true.
Proof.
  induction fuel as [| fuel IH]; intros ms t Hlive.
  - destruct t as [| w aft n | [| todo] | w todo | |]; simpl; auto.
  - destruct t as [| w aft n | [| todo] | w todo | |]; try discriminate Hlive;
      cbn [timer_loop]; rewrite ?Hrunning, ?Hrounds.
    + specialize (IH ms (InPlay (blocking (play_audio h s)) (after (play_audio h s)) secs) eq_refl).
      destruct (timer_loop h s fuel ms _) as [[t' evs] rest]. exact IH.
    + destruct (w <=? ms)%N; [| reflexivity].
      specialize (IH (ms - w)%N (AtFor n) eq_refl).
      destruct (timer_loop h s fuel (ms - w)%N (AtFor n)) as [[t' evs] rest]. exact IH.
    + now apply IH.
    + now apply IH.
    + destruct (w <=? ms)%N; [| reflexivity]. now apply IH.
Qed.

End TimerLoop.

(** ** Commands: which fields they touch *)

Lemma threads_advance h fuel ms s :
  threads (advance h fuel ms s) = map (fun t => fst (fst (timer_loop h s fuel ms t))) (threads s).
Proof. unfold advance. cbn. now rewrite map_map. Qed.

Lemma clock_advance h fuel ms s : clock (advance h fuel ms s) = (clock s + ms)%N.
Proof. reflexivity. Qed.

Lemma running_advance h fuel ms s : running (advance h fuel ms s) = running s.
Proof. reflexivity. Qed.

Lemma timer_thread_advance h fuel ms s : timer_thread (advance h fuel ms s) = timer_thread s.
Proof. reflexivity. Qed.

Lemma settings_advance h fuel ms s : settings (advance h fuel ms s) = settings s.
Proof. reflexivity. Qed.

Lemma files_advance h fuel ms s : files (advance h fuel ms s) = files s.
Proof. reflexivity. Qed.

Lemma icon_advance h fuel ms s : icon (advance h fuel ms s) = icon s.
Proof. reflexivity. Qed.

(** [join] lets some time pass, at most the timeout. *)
Lemma join_is_advance h fuel timeout i s :
  exists ms, (ms <= timeout)%N /\ join h fuel timeout i s = advance h fuel ms s
             \/ join h fuel timeout i s = s.
Proof.
  unfold join. destruct (threads s !! i) as [t |].
  - destruct (timer_loop h s fuel timeout t) as [[t' evs] rest].
    exists (timeout - rest)%N. left. split; [lia | reflexivity].
  - exists 0%N. now right.
Qed.

Lemma running_join h fuel timeout i s : running (join h fuel timeout i s) = running s.
Proof. destruct (join_is_advance h fuel timeout i s) as [ms [[_ ->] | ->]]; reflexivity. Qed.

Lemma timer_thread_join h fuel timeout i s :
  timer_thread (join h fuel timeout i s) = timer_thread s.
Proof. destruct (join_is_advance h fuel timeout i s) as [ms [[_ ->] | ->]]; reflexivity. Qed.

Lemma settings_join h fuel timeout i s : settings (join h fuel timeout i s) = settings s.
Proof. destruct (join_is_advance h fuel timeout i s) as [ms [[_ ->] | ->]]; reflexivity. Qed.

Lemma files_join h fuel timeout i s : files (join h fuel timeout i s) = files s.
Proof. destruct (join_is_advance h fuel timeout i s) as [ms [[_ ->] | ->]]; reflexivity. Qed.

Lemma icon_join h fuel timeout i s : icon (join h fuel timeout i s) = icon s.
Proof. destruct (join_is_advance h fuel timeout i s) as [ms [[_ ->] | ->]]; reflexivity. Qed.

Lemma stop_timer_stopped h s : running s = false -> stop_timer h s = s.
Proof. intros Hflag. unfold stop_timer. now rewrite Hflag. Qed.

Lemma running_stop_timer h s : running (stop_timer h s) = false.
Proof.
  unfold stop_timer. destruct (running s) eqn:Hflag; [| exact Hflag].
  cbn. destruct (timer_thread s); [apply running_join | reflexivity].
Qed.

Lemma timer_thread_stop_timer h s : timer_thread (stop_timer h s) = timer_thread s.
Proof.
  unfold stop_timer. destruct (running s); [| reflexivity].
  cbn. destruct (timer_thread s) eqn:Hth; cbn.
  - now rewrite timer_thread_join.
  - exact Hth.
Qed.

Lemma settings_stop_timer h s : settings (stop_timer h s) = settings s.
Proof.
  unfold stop_timer. destruct (running s); [| reflexivity].
  cbn. destruct (timer_thread s); cbn; [now rewrite settings_join | reflexivity].
Qed.

Lemma files_stop_timer h s : files (stop_timer h s) = files s.
Proof.
  unfold stop_timer. destruct (running s); [| reflexivity].
  cbn. destruct (timer_thread s); cbn; [now rewrite files_join | reflexivity].
Qed.

Lemma icon_stop_timer h s : icon (stop_timer h s) = icon s.
Proof.
  unfold stop_timer. destruct (running s); [| reflexivity].
  cbn. destruct (timer_thread s); cbn; [now rewrite icon_join | reflexivity].
Qed.

Lemma start_timer_running h s : running s = true -> start_timer h s = s.
Proof. intros Hflag. unfold start_timer. now rewrite Hflag. Qed.

(** What [start_timer] does to a stopped player. *)
Lemma start_timer_stopped h s :
  running s = false ->
  let s' := start_timer h s in
  running s' = true
  /\ timer_thread s' = Some (length (threads s))
  /\ threads s' = threads s ++ [AtWhile]
  /\ settings s' = settings s
  /\ files s' = files s
  /\ icon s' = icon s
  /\ clock s' = clock s
  /\ trace s'
     = trace s ++ [Log LTimerStarted]
         ++ notify_if_icon s (NStarted (dict_get_default "interval_minutes" (PInt 10) (settings s))).
Proof.
  intros Hflag. unfold start_timer. rewrite Hflag. cbn.
  repeat split; try reflexivity.
  unfold notify_if_icon. cbn. now rewrite <- app_assoc.
Qed.

Lemma running_start_timer h s : running (start_timer h s) = true.
Proof.
  destruct (running s) eqn:Hflag.
  - now rewrite start_timer_running.
  - now destruct (start_timer_stopped h s Hflag) as [? _].
Qed.

Lemma count_if_app {A} (f : A -> bool) l1 l2 :
  count_if f (l1 ++ l2) = count_if f l1 + count_if f l2.
Proof. induction l1 as [| x l1 IH]; cbn; [reflexivity | rewrite IH; lia]. Qed.

(** ** Start and stop *)

(** C5. A second [start_timer] right after the first changes nothing: no
    thread is added, nothing is logged or notified.  From a stopped player
    with no loop thread left over, the two calls leave exactly one running
    loop.  [stop_timer] on a stopped player changes nothing. *)
Theorem start_twice_stop_stopped h s :
  start_timer h (start_timer h s) = start_timer h s
  /\ (running s = false -> live_threads s = 0 ->
        running (start_timer h (start_timer h s)) = true
        /\ live_threads (start_timer h (start_timer h s)) = 1)
  /\ (running s = false -> stop_timer h s = s).
Proof.
  assert (Hidem : start_timer h (start_timer h s) = start_timer h s)
    by (apply start_timer_running, running_start_timer).
  split; [exact Hidem |]. split.
  - intros Hflag Hnone. rewrite Hidem.
    destruct (start_timer_stopped h s Hflag) as (Hrun & _ & Hthreads & _).
    split; [exact Hrun |].
    unfold live_threads in *. rewrite Hthreads, count_if_app, Hnone. reflexivity.
  - apply stop_timer_stopped.
Qed.

Lemma start_twice_stop_stopped_witness :
  start_timer Demo.host0 (start_timer Demo.host0 Demo.with_tone)
    = start_timer Demo.host0 Demo.with_tone
  /\ (running (start_timer Demo.host0 (start_timer Demo.host0 Demo.with_tone)) = true
      /\ live_threads (start_timer Demo.host0 (start_timer Demo.host0 Demo.with_tone)) = 1)
  /\ stop_timer Demo.host0 Demo.with_tone = Demo.with_tone.
Proof.
  destruct (start_twice_stop_stopped Demo.host0 Demo.with_tone) as (H1 & H2 & H3).
  split; [exact H1 |]. split.
  - apply H2; reflexivity.
  - apply H3; reflexivity.
Defined.

(** ** The thread handle *)

Lemma fresh_is_initial : init Demo.host0 Demo.cfg ∅ None = Returns Demo.fresh.
Proof. reflexivity. Qed.

(** C6, refuted as stated: start then stop, from a fresh player.  The loop
    is stopped and the handle still names the thread that was joined. *)
Lemma handle_outlives_stop :
  let s := exec Demo.host0 Stop (exec Demo.host0 Start Demo.fresh) in
  reachable Demo.host0 s
  /\ running s = false
  /\ timer_thread s = Some 0
  /\ ~ handle_iff_running s.
Proof.
  cbv zeta. split; [| split; [| split]].
  - do 2 apply reach_exec. eapply reach_init. exact fresh_is_initial.
  - reflexivity.
  - reflexivity.
  - intros [Hto _]. discriminate Hto. discriminate.
Qed.

Lemma running_set_interval h v s :
  running (set_interval h v s) = true -> timer_thread (set_interval h v s) <> None.
Proof.
  unfold set_interval. cbn [running timer_thread emit].
  change (running (save_settings h (set_settings (dict_set "interval_minutes" (PInt v) (settings s)) s)))
    with (running s).
  destruct (running s) eqn:Hflag.
  - intros _.
    match goal with |- timer_thread (start_timer h ?x) <> None =>
      assert (Hx : running x = false) by (unfold sleep; rewrite running_advance; apply running_stop_timer);
      destruct (start_timer_stopped h x Hx) as (_ & -> & _)
    end.
    discriminate.
  - unfold refresh_menu. cbn. destruct (icon s); cbn; rewrite Hflag; discriminate.
Qed.

(** C6, amended.  In every state reached from [__init__] by [start_timer],
    [stop_timer] and [set_interval], a set [running] flag comes with a
    thread handle; the handle is [None] only while the flag is clear. *)
Theorem running_has_handle h s :
  reachable h s ->
  (running s = true -> timer_thread s <> None)
  /\ (timer_thread s = None -> running s = false).
Proof.
  intros Hreach.
  assert (Hinv : running s = true -> timer_thread s <> None).
  { induction Hreach as [s_file fs entry s Hinit | c s Hreach IH].
    - unfold init in Hinit.
      destruct (load_settings h s_file fs) as [[[d fs'] evs] | e]; [| discriminate].
      injection Hinit as <-. discriminate.
    - destruct c as [| | v]; cbn [exec].
      + destruct (running s) eqn:Hflag.
        * rewrite start_timer_running by exact Hflag. intros _. now apply IH.
        * destruct (start_timer_stopped h s Hflag) as (_ & -> & _). discriminate.
      + rewrite running_stop_timer. discriminate.
      + apply running_set_interval. }
  split; [exact Hinv |].
  intros Hnone. destruct (running s) eqn:Hflag; [| reflexivity].
  now destruct (Hinv eq_refl).
Qed.

Lemma running_has_handle_witness :
  (running (exec Demo.host0 Start Demo.fresh) = true
   -> timer_thread (exec Demo.host0 Start Demo.fresh) <> None)
  /\ (timer_thread (exec Demo.host0 Start Demo.fresh) = None
      -> running (exec Demo.host0 Start Demo.fresh) = false).
Proof.
  apply (running_has_handle Demo.host0 (exec Demo.host0 Start Demo.fresh)).
  apply reach_exec. apply (reach_init Demo.host0 Demo.cfg ∅ None). reflexivity.
Defined.

(** ** Stopping a running loop *)

Lemma lookup_map {A B} (f : A -> B) (l : list A) (i : nat) :
  map f l !! i = option_map f (l !! i).
Proof.
  revert i. induction l as [| x l IH]; intros [| i]; cbn; auto.
Qed.

Lemma map_ext_eq {A B} (f g : A -> B) (l : list A) :
  (forall x, f x = g x) -> map f l = map g l.
Proof. intros Hfg. induction l as [| x l IH]; cbn; [reflexivity | now rewrite Hfg, IH]. Qed.

(** With the flag cleared, time passing winds every thread down. *)
Lemma threads_advance_flag_down h fuel ms s :
  running s = false -> 3 <= fuel ->
  threads (advance h fuel ms s) = map (fun t => fst (fst (wind_down ms t))) (threads s).
Proof.
  intros Hflag Hfuel. rewrite threads_advance.
  apply map_ext_eq. intros t. now rewrite timer_loop_flag_down.
Qed.

(** [stop_timer] on a running player holds its caller for as long as the
    loop thread still blocks, and for two seconds at most. *)
Lemma stop_timer_running h s i t :
  running s = true ->
  timer_thread s = Some i ->
  threads s !! i = Some t ->
  stop_timer h s
  = emit [Log LTimerStopped]
         (advance h flag_down_fuel (N.min 2000 (wind_time t)) (set_running false s)).
Proof.
  intros Hflag Hhandle Hthread.
  unfold stop_timer. rewrite Hflag. cbn [timer_thread set_running]. rewrite Hhandle.
  unfold join. cbn [threads set_running]. rewrite Hthread.
  rewrite timer_loop_flag_down by (reflexivity || (unfold flag_down_fuel; lia)).
  assert (Hrest : forall rest, (2000 - rest = N.min 2000 (wind_time t))%N ->
            advance h flag_down_fuel (2000 - rest) (set_running false s)
            = advance h flag_down_fuel (N.min 2000 (wind_time t)) (set_running false s))
    by (intros rest ->; reflexivity).
  destruct t as [| w aft secs | todo | w todo | |]; cbn [wind_down wind_time] in *;
    try (rewrite Hrest by lia; reflexivity).
  - destruct (w <=? 2000)%N eqn:Hw;
      [apply N.leb_le in Hw | apply N.leb_gt in Hw]; rewrite Hrest by lia; reflexivity.
  - destruct (w <=? 2000)%N eqn:Hw;
      [apply N.leb_le in Hw | apply N.leb_gt in Hw]; rewrite Hrest by lia; reflexivity.
Qed.



(** ** Errors inside a cycle *)

Lemma null_started_arises :
  exists s0,
    init Demo.host0 Demo.cfg (files Demo.null_started) None = Returns s0
    /\ run_systray Demo.host0 s0 = Demo.null_started.
Proof. eexists. split; reflexivity. Qed.

(** C8, refuted as stated: a settings file with a null [interval_minutes].
    The multiplication at the top of the first cycle raises, nothing in
    [timer_loop] catches it, and the thread ends with the flag still set. *)
Lemma null_interval_ends_running_loop :
  ~ only_stop_ends_loop Demo.host0 Demo.null_started.
Proof.
  intros Hclaim.
  specialize (Hclaim eq_refl 1 0%N AtWhile eq_refl).
  discriminate Hclaim.
Qed.

(** C8, amended.  Take a cycle of the loop with the flag set and an
    interval on which [interval_minutes * 60] and [int] succeed.  The
    playback attempt of the cycle has no exceptional outcome: whatever it
    meets (a missing file, a decode or playback error, any other exception)
    its events are emitted, the wait of the cycle follows and the next
    cycle begins.  No step taken with the flag set ends the thread; once
    the flag is cleared the next test of the flag ends it. *)
Theorem loop_outlives_playback_errors h s secs :
  running s = true ->
  loop_rounds h s = Returns secs ->
  (forall fuel ms,
     timer_loop h s (2 * secs + 3 + fuel)
         (blocking (play_audio h s) + 1000 * N.of_nat secs + ms)%N AtWhile
     = let '(t, evs, rest) := timer_loop h s fuel ms AtWhile in
       (t, play_events (play_audio h s) ++ evs, rest))
  /\ (forall fuel ms t,
        is_live t = true -> is_live (fst (fst (timer_loop h s fuel ms t))) = true)
  /\ (forall fuel ms,
        3 <= fuel -> timer_loop h (set_running false s) fuel ms AtWhile = (Finished, [], ms)).
Proof.
  intros Hflag Hrounds. split; [| split].
  - intros fuel ms. now apply timer_loop_cycle.
  - intros fuel ms t. now apply (timer_loop_keeps_live h s Hflag secs).
  - intros fuel ms Hfuel. now rewrite timer_loop_flag_down.
Qed.

Lemma loop_outlives_playback_errors_witness :
  returned (play_audio Demo.host0 Demo.no_tone) = false
  /\ timer_loop Demo.host0 Demo.no_tone 1210 600000%N AtWhile
     = (InSleep 1000 599,
        [Log (LAudioNotFound "./tone.wav"); Notify (NAudioNotFound "./tone.wav");
         Log (LAudioNotFound "./tone.wav"); Notify (NAudioNotFound "./tone.wav")],
        0%N).
Proof.
  split; [reflexivity |].
  destruct (loop_outlives_playback_errors Demo.host0 Demo.no_tone 600 eq_refl eq_refl)
    as (Hcycle & _ & _).
  exact (Hcycle 7 0%N).
Defined.

(** ** Fields absent from the record *)

Lemma dict_get_default_absent k dflt d :
  dict_get k d = None -> dict_get_default k dflt d = dflt.
Proof. intros Hk. unfold dict_get_default. now rewrite Hk. Qed.

(** C10. A record without [tone_file] resolves the audio path to
    [tone.wav] in the base directory; a record without [interval_minutes]
    gives the loop 600 one-second rounds, keeps a running loop thread alive
    at every step, and makes a start announce 10 minutes.  None of these
    reads raises.  [load_settings] hands such a record over as parsed,
    without the defaults and without rewriting the file. *)
Theorem absent_fields_read_as_defaults h s :
  (dict_get "tone_file" (settings s) = None ->
     get_audio_path h s = Returns (path_join h (get_base_path h) "tone.wav"))
  /\ (dict_get "interval_minutes" (settings s) = None ->
        loop_rounds h s = Returns 600
        /\ (running s = true ->
              forall fuel ms t,
                is_live t = true -> is_live (fst (fst (timer_loop h s fuel ms t))) = true)
        /\ (running s = false ->
              trace (start_timer h s)
              = trace s ++ [Log LTimerStarted] ++ notify_if_icon s (NStarted (PInt 10))))
  /\ (forall s_file (fs : gmap string string) text d,
        fs !! settings_path h s_file = Some text ->
        Json.load text = Some d ->
        load_settings h s_file fs = Returns (d, fs, [])).
Proof.
  split; [| split].
  - intros Hk. unfold get_audio_path. now rewrite dict_get_default_absent.
  - intros Hk.
    assert (Hrounds : loop_rounds h s = Returns 600)
      by (unfold loop_rounds; now rewrite dict_get_default_absent).
    split; [exact Hrounds |]. split.
    + intros Hflag fuel ms t. now apply (timer_loop_keeps_live h s Hflag 600).
    + intros Hflag.
      destruct (start_timer_stopped h s Hflag) as (_ & _ & _ & _ & _ & _ & _ & ->).
      now rewrite dict_get_default_absent.
  - intros s_file fs text d. apply load_settings_existing.
Qed.

Lemma absent_fields_read_as_defaults_witness :
  load_settings Demo.host0 Demo.cfg (files Demo.bare) = Returns (settings Demo.bare, files Demo.bare, [])
  /\ get_audio_path Demo.host0 Demo.bare = Returns "./tone.wav"
  /\ loop_rounds Demo.host0 Demo.bare = Returns 600
  /\ trace (start_timer Demo.host0 Demo.bare)
     = [Log LTimerStarted; Notify (NStarted (PInt 10))].
Proof.
  destruct (absent_fields_read_as_defaults Demo.host0 Demo.bare) as (Hpath & Hloop & Hload).
  split; [| split; [| split]].
  - apply (Hload Demo.cfg (files Demo.bare) "{}" []); reflexivity.
  - apply Hpath. reflexivity.
  - apply Hloop. reflexivity.
  - apply Hloop; reflexivity.
Defined.

(** ** Changing the interval *)

Lemma dict_get_set k v d : dict_get k (dict_set k v d) = Some v.
Proof.
  induction d as [| [k' v'] d IH]; cbn.
  - now rewrite String.eqb_refl.
  - destruct (String.eqb k k') eqn:Hk; cbn; now rewrite Hk.
Qed.

Lemma settings_start_timer h s : settings (start_timer h s) = settings s.
Proof.
  destruct (running s) eqn:Hflag.
  - now rewrite start_timer_running.
  - now destruct (start_timer_stopped h s Hflag) as (_ & _ & _ & -> & _).
Qed.

Lemma files_start_timer h s : files (start_timer h s) = files s.
Proof.
  destruct (running s) eqn:Hflag.
  - now rewrite start_timer_running.
  - now destruct (start_timer_stopped h s Hflag) as (_ & _ & _ & _ & -> & _).
Qed.

(** The first effects of [set_interval], whatever the loop is doing: the
    record holds the new interval and the settings file holds the whole
    record. *)
Lemma set_interval_persists h v s :
  let s' := set_interval h v s in
  settings s' = dict_set "interval_minutes" (PInt v) (settings s)
  /\ dict_get "interval_minutes" (settings s') = Some (PInt v)
  /\ files s' !! settings_path h (settings_file s) = Some (Json.dump (settings s')).
Proof.
  cbv zeta.
  assert (Hsettings : settings (set_interval h v s)
                      = dict_set "interval_minutes" (PInt v) (settings s)).
  { unfold set_interval. cbn [settings emit].
    change (running (save_settings h (set_settings (dict_set "interval_minutes" (PInt v) (settings s)) s)))
      with (running s).
    destruct (running s).
    - unfold sleep. now rewrite settings_start_timer, settings_advance, settings_stop_timer.
    - unfold refresh_menu. cbn. now destruct (icon s). }
  split; [exact Hsettings |]. split.
  - rewrite Hsettings. apply dict_get_set.
  - rewrite Hsettings. unfold set_interval. cbn [files emit].
    change (running (save_settings h (set_settings (dict_set "interval_minutes" (PInt v) (settings s)) s)))
      with (running s).
    destruct (running s).
    + unfold sleep. rewrite files_start_timer, files_advance, files_stop_timer.
      cbn. apply lookup_insert_eq.
    + unfold refresh_menu. cbn. destruct (icon s); cbn; apply lookup_insert_eq.
Qed.

(** On a stopped player [set_interval] starts nothing and plays nothing:
    apart from the record and its file, it rebuilds the menu and notifies,
    both only when the icon exists. *)
Lemma set_interval_stopped h v s :
  running s = false ->
  let s' := set_interval h v s in
  running s' = false
  /\ timer_thread s' = timer_thread s
  /\ threads s' = threads s
  /\ clock s' = clock s
  /\ trace s' = trace s ++ notify_if_icon s (NIntervalUpdated v)
  /\ icon s' = match icon s with
               | Some _ => Some (Menu (is_startup_enabled h s)
                                      (Z.eqb v 3) (Z.eqb v 5) (Z.eqb v 10))
               | None => None
               end.
Proof.
  intros Hflag. unfold set_interval. cbn [running save_settings set_files set_settings].
  rewrite Hflag. unfold refresh_menu, notify_if_icon, create_menu, dict_get_default.
  cbn [icon settings save_settings set_files set_settings].
  rewrite dict_get_set.
  destruct (icon s) eqn:Hicon; cbn; rewrite ?Hicon, ?app_nil_r; repeat split; auto.
Qed.

Lemma count_if_map_none {A B} (f : A -> B) (g : B -> bool) (l : list A) :
  Forall (fun x => g (f x) = false) l -> count_if g (map f l) = 0.
Proof.
  induction 1 as [| x l Hx _ IH]; cbn; [reflexivity | now rewrite Hx, IH].
Qed.

(** On a running player whose loop thread [t] is the only one alive and
    blocks for at most 2.5 seconds more (every point of the wait, and the
    end of a tone), [set_interval] replaces the loop: the old thread has
    ended, one new thread stands at the top of [timer_loop], and that thread
    makes one attempt and then sits in the new wait of [v * 60] seconds. *)
Lemma set_interval_restarts h v s i t :
  running s = true ->
  timer_thread s = Some i ->
  threads s !! i = Some t ->
  (wind_time t <= 2500)%N ->
  Forall (fun t' => is_live t' = false \/ t' = t) (threads s) ->
  let s' := set_interval h v s in
  let n := Z.to_nat (v * 60) in
  running s' = true
  /\ timer_thread s' = Some (length (threads s))
  /\ threads s' !! length (threads s) = Some AtWhile
  /\ live_threads s' = 1
  /\ loop_rounds h s' = Returns n
  /\ (forall j r fuel,
        j < n -> (r < 1000)%N -> 2 * j + 4 <= fuel ->
        timer_loop h s' fuel (blocking (play_audio h s') + 1000 * N.of_nat j + r)%N AtWhile
        = (InSleep (1000 - r)%N (n - j - 1), play_events (play_audio h s'), 0%N)).
Proof.
  intros Hflag Hhandle Hthread Hwind Hothers s' n.
  set (s2 := save_settings h (set_settings (dict_set "interval_minutes" (PInt v) (settings s)) s)).
  set (e := N.min 2000 (wind_time t)).
  set (x := sleep h 500 (stop_timer h s2)).
  assert (Hstop : stop_timer h s2
                  = emit [Log LTimerStopped] (advance h flag_down_fuel e (set_running false s2)))
    by (apply (stop_timer_running h s2 i t); assumption).
  assert (Hxflag : running x = false)
    by (unfold x, sleep; rewrite running_advance; apply running_stop_timer).
  assert (Hxthreads : threads x
            = map (fun t' => fst (fst (wind_down 500 t')))
                  (map (fun t' => fst (fst (wind_down e t'))) (threads s))).
  { unfold x, sleep.
    rewrite threads_advance_flag_down
      by (apply running_stop_timer || (unfold flag_down_fuel; lia)).
    rewrite Hstop. cbn [threads emit].
    rewrite threads_advance_flag_down by (reflexivity || (unfold flag_down_fuel; lia)).
    reflexivity. }
  assert (Hxdead : count_if is_live (threads x) = 0).
  { rewrite Hxthreads, map_map. apply count_if_map_none.
    eapply Forall_impl; [exact Hothers |].
    intros t' [Hdead | ->].
    - destruct t'; try discriminate Hdead; reflexivity.
    - subst e. destruct t as [| w aft secs | todo | w todo | |]; cbn [wind_time wind_down] in *;
        try reflexivity.
      + destruct (N.min 2000 w <=? w)%N eqn:H1; [| apply N.leb_gt in H1; lia].
        destruct (w <=? N.min 2000 w)%N eqn:H2; cbn; [reflexivity |].
        apply N.leb_gt in H2.
        destruct (w - N.min 2000 w <=? 500)%N eqn:H3; [reflexivity |].
        apply N.leb_gt in H3. lia.
      + destruct (w <=? N.min 2000 w)%N eqn:H2; cbn; [reflexivity |].
        apply N.leb_gt in H2.
        destruct (w - N.min 2000 w <=? 500)%N eqn:H3; [reflexivity |].
        apply N.leb_gt in H3. lia. }
  assert (Hxlen : length (threads x) = length (threads s))
    by (rewrite Hxthreads; now rewrite !length_map).
  assert (Hs' : s' = emit (notify_if_icon (start_timer h x) (NIntervalUpdated v)) (start_timer h x)).
  { subst s'. unfold set_interval. fold s2. change (running s2) with (running s).
    now rewrite Hflag. }
  destruct (start_timer_stopped h x Hxflag)
    as (Hrun & Hth & Hthreads & Hsettings & _).
  assert (Hrounds : loop_rounds h s' = Returns n).
  { unfold loop_rounds, dict_get_default, s'.
    destruct (set_interval_persists h v s) as (_ & -> & _). reflexivity. }
  assert (Hflag' : running s' = true) by (rewrite Hs'; exact Hrun).
  split; [exact Hflag' |]. split; [| split; [| split; [| split]]].
  - rewrite Hs'. cbn [timer_thread emit]. now rewrite Hth, Hxlen.
  - rewrite Hs'. cbn [threads emit]. rewrite Hthreads, <- Hxlen.
    now rewrite lookup_app_r, Nat.sub_diag by lia.
  - unfold live_threads. rewrite Hs'. cbn [threads emit].
    now rewrite Hthreads, count_if_app, Hxdead.
  - exact Hrounds.
  - intros j r fuel Hj Hr Hfuel.
    destruct fuel as [| [| fuel]]; try lia.
    cbn [timer_loop]. rewrite Hflag', Hrounds.
    set (p := play_audio h s').
    assert (Hle : (blocking p <=? blocking p + 1000 * N.of_nat j + r)%N = true)
      by (apply N.leb_le; lia).
    rewrite Hle.
    replace (blocking p + 1000 * N.of_nat j + r - blocking p)%N
      with (1000 * N.of_nat j + r)%N by lia.
    rewrite (timer_loop_inside_wait h s' Hflag' j n r fuel) by lia.
    unfold play_events. now rewrite app_nil_r.
Qed.

(** C1 at a state the code does not handle.  The interval is changed from 3
    to 10 minutes one second into a five-second tone.  [stop_timer] gives up
    on the join after two seconds, the loop thread is still inside the tone
    when [start_timer] sets the flag again and starts a second thread, and
    from then on two loops are active: within 200 seconds of the call (the new wait
    is 600 seconds) two playbacks have begun, the second one by the thread
    that was to be replaced. *)
Theorem set_interval_during_long_tone :
  let s := Demo.mid_tone in
  let s' := set_interval Demo.host0 10 s in
  (running s = true /\ live_threads s = 1)
  /\ running s' = true
  /\ threads s' = [InPlay 1500 [Log LPlayed] 180; AtWhile]
  /\ live_threads s' = 2
  /\ loop_rounds Demo.host0 s' = Returns 600
  /\ count_if is_playing_log (trace (idle Demo.host0 1000 200000 s'))
     = count_if is_playing_log (trace s') + 2
  /\ threads (idle Demo.host0 1000 200000 s') = [InSleep 500 586; InSleep 1000 404].
Proof.
  vm_compute. repeat split; reflexivity.
Qed.

(** ** Where the concrete states come from *)

(** [run_systray] builds the icon and then starts the timer. *)
Lemma run_systray_steps h s :
  run_systray h s = start_timer h (set_icon (Some (create_menu h s)) s).
Proof. reflexivity. Qed.

Lemma with_tone_arises :
  exists s0,
    init Demo.host0 Demo.cfg (files Demo.with_tone) None = Returns s0
    /\ set_icon (Some (create_menu Demo.host0 s0)) s0 = Demo.with_tone.
Proof. eexists. split; reflexivity. Qed.

Lemma bare_arises :
  exists s0,
    init Demo.host0 Demo.cfg (files Demo.bare) None = Returns s0
    /\ set_icon (Some (create_menu Demo.host0 s0)) s0 = Demo.bare.
Proof. eexists. split; reflexivity. Qed.

Lemma no_tone_arises :
  exists s0,
    init Demo.host0 Demo.cfg (files Demo.no_tone) None = Returns s0
    /\ run_systray Demo.host0 s0 = Demo.no_tone.
Proof. eexists. split; reflexivity. Qed.

Lemma waiting_arises :
  exists s0,
    init Demo.host0 Demo.cfg (files Demo.waiting) None = Returns s0
    /\ idle Demo.host0 4 5300 (run_systray Demo.host0 s0) = Demo.waiting.
Proof. eexists. split; [reflexivity | vm_compute; reflexivity]. Qed.

Lemma mid_tone_arises :
  exists s0,
    init Demo.host0 Demo.cfg (files Demo.mid_tone) None = Returns s0
    /\ idle Demo.host0 4 1000 (run_systray Demo.host0 s0) = Demo.mid_tone.
Proof. eexists. split; [reflexivity | vm_compute; reflexivity]. Qed.

(** * More of the program *)

(** ** What [json.dump] writes, [json.load] reads back *)

Module JsonRoundTrip.
Import Json.

Lemma append_cons c (a b : string) : String c a +:+ b = String c (a +:+ b).
Proof. reflexivity. Qed.

Lemma append_nil (b : string) : EmptyString +:+ b = b.
Proof. reflexivity. Qed.

Lemma append_assoc (a b c : string) : (a +:+ b) +:+ c = a +:+ (b +:+ c).
Proof.
  induction a as [| x a IH]; [reflexivity |].
  rewrite !append_cons. now rewrite IH.
Qed.

Ltac flatten_append :=
  repeat (rewrite append_cons || rewrite append_nil || rewrite append_assoc).

Lemma append_length (a b : string) :
  String.length (a +:+ b) = String.length a + String.length b.
Proof.
  induction a as [| x a IH]; [reflexivity |].
  rewrite append_cons. cbn [String.length]. now rewrite IH.
Qed.

Lemma scan_escape_char c t :
  scan_string (escape_char c +:+ t)
  = match scan_string t with
    | Some (body, rest) => Some (String c body, rest)
    | None => None
    end.
Proof.
  destruct c as [[] [] [] [] [] [] [] []]; reflexivity.
Qed.

Lemma scan_escape s : forall t,
  scan_string (escape s +:+ String quote t) = Some (s, t).
Proof.
  induction s as [| c r IH]; intros t.
  - reflexivity.
  - cbn [escape]. rewrite append_assoc, scan_escape_char, IH. reflexivity.
Qed.

(** Integers: what [pretty] prints, [scan_nat] reads. *)
Lemma digit_value_pretty_char x :
  (x < 10)%N -> digit_value (pretty_N_char x) = Some (Z.of_N x).
Proof.
  intros Hx.
  assert (x = 0 \/ x = 1 \/ x = 2 \/ x = 3 \/ x = 4 \/ x = 5 \/ x = 6 \/ x = 7 \/ x = 8 \/ x = 9)%N
    as Hcases by lia.
  repeat (destruct Hcases as [-> | Hcases]; [reflexivity |]). subst x. reflexivity.
Qed.

Lemma pretty_N_go_append x : forall s t, pretty_N_go x s +:+ t = pretty_N_go x (s +:+ t).
Proof.
  induction (N.lt_wf_0 x) as [x _ IH]; intros s t.
  destruct (N.eq_dec x 0%N) as [-> | Hx].
  - now rewrite !pretty_N_go_0.
  - rewrite (pretty_N_go_step x s), (pretty_N_go_step x (s +:+ t)) by lia.
    rewrite IH by (apply N.div_lt; lia). reflexivity.
Qed.

Lemma scan_digits_pretty x : forall s,
  scan_digits 0 (pretty_N_go x s) = scan_digits (Z.of_N x) s.
Proof.
  induction (N.lt_wf_0 x) as [x _ IH]; intros s.
  destruct (N.eq_dec x 0%N) as [-> | Hx].
  - now rewrite pretty_N_go_0.
  - rewrite pretty_N_go_step by lia.
    rewrite IH by (apply N.div_lt; lia).
    cbn [scan_digits].
    rewrite digit_value_pretty_char by (apply N.mod_lt; lia).
    f_equal. rewrite (N.div_mod x 10) at 3 by lia. lia.
Qed.

Lemma pretty_N_go_head x : forall s,
  (0 < x)%N ->
  exists c r d, pretty_N_go x s = String c r /\ digit_value c = Some d /\ (0 < d)%Z.
Proof.
  induction (N.lt_wf_0 x) as [x _ IH]; intros s Hx.
  rewrite pretty_N_go_step by lia.
  destruct (N.eq_dec (x / 10)%N 0%N) as [Hsmall | Hbig].
  - rewrite Hsmall, pretty_N_go_0.
    exists (pretty_N_char (x mod 10)%N), s, (Z.of_N (x mod 10)%N).
    split; [reflexivity |]. split.
    + apply digit_value_pretty_char, N.mod_lt; lia.
    + assert (x = 10 * (x / 10) + x mod 10)%N as Hdm by (apply N.div_mod; lia).
      rewrite Hsmall in Hdm. lia.
  - apply IH; [apply N.div_lt; lia | now apply N.neq_0_lt_0].
Qed.

Lemma digit_is_plain c d :
  digit_value c = Some d ->
  is_ws c = false
  /\ Ascii.eqb c quote = false
  /\ Ascii.eqb c "-" = false
  /\ Ascii.eqb c "n" = false
  /\ Ascii.eqb c "t" = false
  /\ Ascii.eqb c "f" = false.
Proof.
  destruct c as [[] [] [] [] [] [] [] []]; cbn; intros H; try discriminate H;
    repeat split; reflexivity.
Qed.

Lemma scan_nat_pretty x c r :
  (0 < x)%N ->
  digit_value c = None ->
  starts_float_tail (String c r) = false ->
  scan_nat (pretty_N_go x (String c r)) = Some (Z.of_N x, String c r).
Proof.
  intros Hx Hc Hfloat.
  pose proof (scan_digits_pretty x (String c r)) as Hdigits.
  destruct (pretty_N_go_head x (String c r) Hx) as (c0 & r0 & d & Heq & Hd & Hpos).
  rewrite Heq in *. cbn [scan_digits] in Hdigits. rewrite Hd, Hc in Hdigits.
  unfold scan_nat. rewrite Hd.
  destruct d as [| p | p]; try lia.
  replace (10 * 0 + Z.pos p)%Z with (Z.pos p) in Hdigits by lia.
  rewrite Hdigits, Hfloat. reflexivity.
Qed.

Lemma substring_all t : substring 0 (String.length t) t = t.
Proof. induction t as [| c t IH]; cbn; [reflexivity | now rewrite IH]. Qed.

Lemma ends_value_facts c r :
  ends_value c ->
  digit_value c = None /\ starts_float_tail (String c r) = false.
Proof. intros [-> | ->]; split; reflexivity. Qed.

Lemma scan_scalar_dump v c r :
  ends_value c ->
  scan_scalar (dump_scalar v +:+ String c r) = Some (v, String c r).
Proof.
  intros Hc. destruct (ends_value_facts c r Hc) as [Hdigit Hfloat].
  destruct v as [| [] | [| p | p] | s]; cbn [dump_scalar].
  - flatten_append. unfold scan_scalar, strip_prefix. cbn. now rewrite substring_all.
  - flatten_append. unfold scan_scalar, strip_prefix. cbn. now rewrite substring_all.
  - flatten_append. unfold scan_scalar, strip_prefix. cbn. now rewrite substring_all.
  - change (pretty 0%Z) with "0". flatten_append. cbn. cbn in Hfloat. now rewrite Hfloat.
  - change (pretty (Z.pos p)) with (pretty_N_go (N.pos p) "").
    rewrite pretty_N_go_append, append_nil.
    pose proof (scan_nat_pretty (N.pos p) c r ltac:(lia) Hdigit Hfloat) as Hnat.
    destruct (pretty_N_go_head (N.pos p) (String c r) ltac:(lia)) as (c0 & r0 & d & Heq & Hd & _).
    rewrite Heq in *. destruct (digit_is_plain c0 d Hd) as (_ & H1 & H2 & H3 & H4 & H5).
    unfold scan_scalar. rewrite H1, H2, H3, H4, H5, Hnat. reflexivity.
  - change (pretty (Z.neg p)) with ("-" +:+ pretty_N_go (N.pos p) "").
    rewrite append_assoc, pretty_N_go_append, append_nil, append_cons, append_nil.
    unfold scan_scalar. cbv beta iota.
    change (Ascii.eqb "-" quote) with false. change (Ascii.eqb "-" "-") with true.
    cbv beta iota.
    rewrite (scan_nat_pretty (N.pos p) c r) by (lia || assumption). reflexivity.
  - unfold dump_str, str1. flatten_append.
    unfold scan_scalar. cbn. rewrite scan_escape. reflexivity.
Qed.

Lemma skip_ws_dump_scalar v t : skip_ws (dump_scalar v +:+ t) = dump_scalar v +:+ t.
Proof.
  destruct v as [| [] | [| p | p] | s]; cbn [dump_scalar]; try reflexivity.
  change (pretty (Z.pos p)) with (pretty_N_go (N.pos p) "").
  rewrite pretty_N_go_append, append_nil.
  destruct (pretty_N_go_head (N.pos p) t ltac:(lia)) as (c0 & r0 & d & Heq & Hd & _).
  rewrite Heq.
  destruct (digit_is_plain c0 d Hd) as (Hws & _).
  cbn [skip_ws]. now rewrite Hws.
Qed.

Lemma dump_item_shape k v t :
  dump_item (k, v) +:+ t
  = String newline (String " " (String " " (String " " (String " "
      (String quote (escape k +:+ String quote
         (String ":" (String " " (dump_scalar v +:+ t)))))))))%char.
Proof. unfold dump_item, dump_str, str1. cbn [fst snd]. flatten_append. reflexivity. Qed.

Lemma dump_items_cons kv kv' d t :
  dump_items (kv :: kv' :: d) +:+ t
  = dump_item kv +:+ String "," (dump_items (kv' :: d) +:+ t).
Proof.
  change (dump_items (kv :: kv' :: d))
    with (dump_item kv +:+ "," +:+ dump_items (kv' :: d)).
  flatten_append. reflexivity.
Qed.

Lemma is_ws_newline : is_ws newline = true. Proof. reflexivity. Qed.
Lemma is_ws_space : is_ws " " = true. Proof. reflexivity. Qed.
Lemma is_ws_quote : is_ws quote = false. Proof. reflexivity. Qed.
Lemma is_ws_colon : is_ws ":" = false. Proof. reflexivity. Qed.
Lemma is_ws_comma : is_ws "," = false. Proof. reflexivity. Qed.
Lemma is_ws_brace : is_ws "}" = false. Proof. reflexivity. Qed.

Ltac skip_spaces :=
  repeat (progress (cbn [skip_ws];
                    rewrite ?is_ws_newline, ?is_ws_space, ?is_ws_quote, ?is_ws_colon,
                            ?is_ws_comma, ?is_ws_brace;
                    cbv beta iota)).

Lemma scan_members_quote fuel acc r :
  scan_members (S fuel) acc (String quote r)
  = match scan_string r with
    | Some (key, after_key) =>
        match skip_ws after_key with
        | String colon after_colon =>
            if Ascii.eqb colon ":" then
              match scan_scalar (skip_ws after_colon) with
              | Some (v, after_v) =>
                  match skip_ws after_v with
                  | String sep after_sep =>
                      if Ascii.eqb sep ","
                      then scan_members fuel (dict_set key v acc) (skip_ws after_sep)
                      else if Ascii.eqb sep "}" then Some (dict_set key v acc, after_sep)
                      else None
                  | EmptyString => None
                  end
              | None => None
              end
            else None
        | EmptyString => None
        end
    | None => None
    end.
Proof. reflexivity. Qed.

Lemma scan_members_dump d : forall acc fuel rest,
  d <> [] ->
  length d <= fuel ->
  scan_members fuel acc (skip_ws (dump_items d +:+ String newline (String "}" rest)))
  = Some (fold_left set_pair d acc, rest).
Proof.
  induction d as [| [k v] d IH]; intros acc fuel rest Hne Hfuel; [congruence |].
  destruct fuel as [| fuel]; [cbn in Hfuel; lia |].
  assert (Hstep : forall c r, ends_value c ->
            scan_members (S fuel) acc (skip_ws (dump_item (k, v) +:+ String c r))
            = match skip_ws (String c r) with
              | String sep after_sep =>
                  if Ascii.eqb sep ","
                  then scan_members fuel (dict_set k v acc) (skip_ws after_sep)
                  else if Ascii.eqb sep "}" then Some (dict_set k v acc, after_sep)
                  else None
              | EmptyString => None
              end).
  { intros c r Hc. rewrite dump_item_shape. skip_spaces.
    rewrite scan_members_quote, scan_escape. skip_spaces.
    change (Ascii.eqb ":" ":") with true. cbv beta iota.
    skip_spaces.
    rewrite skip_ws_dump_scalar, (scan_scalar_dump v c r Hc). reflexivity. }
  destruct d as [| kv' d].
  - cbn [dump_items]. rewrite Hstep by (right; reflexivity). skip_spaces.
    reflexivity.
  - rewrite dump_items_cons, Hstep by (left; reflexivity). skip_spaces.
    change (Ascii.eqb "," ",") with true. cbv beta iota.
    rewrite IH by (cbn in *; (discriminate || lia)). reflexivity.
Qed.

Lemma dump_items_length d : length d <= String.length (dump_items d).
Proof.
  induction d as [| kv d IH]; [cbn; lia |].
  destruct d as [| kv' d].
  - cbn. lia.
  - change (dump_items (kv :: kv' :: d))
      with (dump_item kv +:+ "," +:+ dump_items (kv' :: d)).
    rewrite !append_length. unfold dump_item. cbn [String.length length] in *. lia.
Qed.

Lemma load_dump d : load (dump d) = Some (fold_left set_pair d []).
Proof.
  destruct d as [| kv d]; [reflexivity |].
  unfold dump. set (items := dump_items (kv :: d)).
  rewrite append_cons, append_nil.
  assert (Hopen : is_ws "{" = false) by reflexivity.
  unfold load. cbn [skip_ws]. rewrite Hopen. unfold scan_object.
  change (Ascii.eqb "{" "{") with true. cbv beta iota.
  pose proof (scan_members_dump (kv :: d) [] (String.length (String "{" (items +:+ String newline "}"))) ""
                ltac:(discriminate)) as Hmembers.
  fold items in Hmembers.
  assert (Hhead : exists r', skip_ws (items +:+ String newline "}") = String quote r').
  { subst items. destruct kv as [k v]. destruct d as [| kv' d].
    - cbn [dump_items]. rewrite dump_item_shape. skip_spaces. eauto.
    - rewrite dump_items_cons, dump_item_shape. skip_spaces. eauto. }
  destruct Hhead as [r' Hhead]. rewrite Hhead in *.
  change (Ascii.eqb quote "}") with false. cbv beta iota.
  rewrite Hmembers; [reflexivity |].
  cbn [String.length]. rewrite append_length.
  pose proof (dump_items_length (kv :: d)). fold items in H. lia.
Qed.

(** Dictionaries. *)
Lemma dict_get_set_other k k' v d :
  k' <> k -> dict_get k' (dict_set k v d) = dict_get k' d.
Proof.
  intros Hne. induction d as [| [k0 v0] d IH]; cbn.
  - destruct (String.eqb k' k) eqn:Hk; [apply String.eqb_eq in Hk; congruence | reflexivity].
  - destruct (String.eqb k k0) eqn:Hk0; cbn.
    + apply String.eqb_eq in Hk0. subst k0.
      destruct (String.eqb k' k) eqn:Hk; [apply String.eqb_eq in Hk; congruence | reflexivity].
    + now rewrite IH.
Qed.

Lemma dict_set_absent k v d :
  dict_get k d = None -> dict_set k v d = d ++ [(k, v)].
Proof.
  induction d as [| [k0 v0] d IH]; cbn; [reflexivity |].
  destruct (String.eqb k k0); [discriminate |]. intros Hk. now rewrite IH.
Qed.

Lemma dict_set_distinct k v d :
  distinct_keys d -> distinct_keys (dict_set k v d).
Proof.
  induction d as [| [k0 v0] d IH]; cbn.
  - auto.
  - intros [Hk0 Hd]. destruct (String.eqb k k0) eqn:Hk; cbn.
    + auto.
    + split; [| now apply IH].
      rewrite dict_get_set_other; [exact Hk0 |].
      intros ->. now rewrite String.eqb_refl in Hk.
Qed.

Lemma dict_get_app k d1 d2 :
  dict_get k (d1 ++ d2) = match dict_get k d1 with Some v => Some v | None => dict_get k d2 end.
Proof.
  induction d1 as [| [k0 v0] d1 IH]; cbn; [reflexivity |].
  destruct (String.eqb k k0); [reflexivity | exact IH].
Qed.

Lemma fold_set_pair_distinct d : forall acc,
  distinct_keys (acc ++ d) -> fold_left set_pair d acc = acc ++ d.
Proof.
  induction d as [| [k v] d IH]; intros acc Hd; cbn.
  - now rewrite app_nil_r.
  - assert (Hk : dict_get k acc = None).
    { clear IH. induction acc as [| [k0 v0] acc IHacc]; cbn in *; [reflexivity |].
      destruct Hd as [Hk0 Hd]. rewrite dict_get_app in Hk0.
      destruct (dict_get k0 acc) eqn:Hacc; [discriminate |]. cbn in Hk0.
      destruct (String.eqb k0 k) eqn:Hk0k; [discriminate |].
      rewrite String.eqb_sym, Hk0k. now apply IHacc. }
    unfold set_pair at 2. cbn [fst snd]. rewrite (dict_set_absent k v acc Hk).
    rewrite IH; rewrite <- app_assoc; [reflexivity | exact Hd].
Qed.

Lemma fold_set_pair_keeps_distinct d : forall acc,
  distinct_keys acc -> distinct_keys (fold_left set_pair d acc).
Proof.
  induction d as [| kv d IH]; intros acc Hacc; cbn; [exact Hacc |].
  apply IH. now apply dict_set_distinct.
Qed.

Lemma load_dump_distinct d :
  distinct_keys d -> load (dump d) = Some d.
Proof.
  intros Hd. rewrite load_dump. f_equal. now apply (fold_set_pair_distinct d []).
Qed.

Lemma scan_members_distinct fuel : forall acc s d rest,
  distinct_keys acc ->
  scan_members fuel acc s = Some (d, rest) ->
  distinct_keys d.
Proof.
  induction fuel as [| fuel IH]; intros acc s d rest Hacc Hscan; [discriminate |].
  cbn [scan_members] in Hscan.
  destruct s as [| c r]; [discriminate |].
  destruct (Ascii.eqb c quote); [| discriminate].
  destruct (scan_string r) as [[key after_key] |]; [| discriminate].
  destruct (skip_ws after_key) as [| colon after_colon]; [discriminate |].
  destruct (Ascii.eqb colon ":"); [| discriminate].
  destruct (scan_scalar (skip_ws after_colon)) as [[v after_v] |]; [| discriminate].
  destruct (skip_ws after_v) as [| sep after_sep]; [discriminate |].
  destruct (Ascii.eqb sep ",").
  - eapply IH; [| exact Hscan]. now apply dict_set_distinct.
  - destruct (Ascii.eqb sep "}"); [| discriminate].
    injection Hscan as <- _. now apply dict_set_distinct.
Qed.

Lemma load_distinct text d : load text = Some d -> distinct_keys d.
Proof.
  unfold load, scan_object. intros Hload.
  destruct (skip_ws text) as [| c r]; [discriminate |].
  destruct (Ascii.eqb c "{"); [| discriminate].
  destruct (skip_ws r) as [| c' r'] eqn:Hr; [discriminate |].
  destruct (Ascii.eqb c' "}").
  - destruct (skip_ws r'); [| discriminate]. injection Hload as <-. exact I.
  - destruct (scan_members _ [] (String c' r')) as [[d0 rest] |] eqn:Hm; [| discriminate].
    destruct (skip_ws rest); [| discriminate]. injection Hload as <-.
    eapply scan_members_distinct; [| exact Hm]. exact I.
Qed.

End JsonRoundTrip.

(** ** Saving and loading *)

(** X1. What [save_settings] writes, [load_settings] reads back: for a
    record whose keys are distinct, loading the file just saved returns
    that very record, writes nothing and logs nothing. *)
Theorem save_then_load h s :
  distinct_keys (settings s) ->
  load_settings h (settings_file s) (files (save_settings h s))
  = Returns (settings s, files (save_settings h s), []).
Proof.
  intros Hkeys. apply (load_settings_existing h _ _ (Json.dump (settings s))).
  - cbn. apply lookup_insert_eq.
  - now apply JsonRoundTrip.load_dump_distinct.
Qed.

Lemma save_then_load_witness :
  load_settings Demo.host0 Demo.cfg (files (save_settings Demo.host0 Demo.with_tone))
  = Returns (default_settings, files (save_settings Demo.host0 Demo.with_tone), []).
Proof.
  apply (save_then_load Demo.host0 Demo.with_tone). cbn. auto.
Defined.

Lemma settings_file_stop_timer h s : settings_file (stop_timer h s) = settings_file s.
Proof.
  unfold stop_timer. destruct (running s); [| reflexivity].
  cbn. destruct (timer_thread s); cbn; [| reflexivity].
  destruct (join_is_advance h flag_down_fuel 2000 n (set_running false s)) as [ms [[_ ->] | ->]];
    reflexivity.
Qed.

Lemma settings_file_advance h fuel ms s :
  settings_file (advance h fuel ms s) = settings_file s.
Proof. reflexivity. Qed.

Lemma settings_file_start_timer h s : settings_file (start_timer h s) = settings_file s.
Proof. unfold start_timer. destruct (running s); reflexivity. Qed.

Lemma settings_file_set_interval h v s :
  settings_file (set_interval h v s) = settings_file s.
Proof.
  unfold set_interval. cbn [settings_file emit].
  change (running (save_settings h (set_settings (dict_set "interval_minutes" (PInt v) (settings s)) s)))
    with (running s).
  destruct (running s).
  - unfold sleep.
    now rewrite settings_file_start_timer, settings_file_advance, settings_file_stop_timer.
  - unfold refresh_menu. cbn. now destruct (icon s).
Qed.

(** X2. [set_interval] changes one field only: the keys stay distinct,
    [interval_minutes] reads as the new value, every other key reads as
    before, and loading the settings file afterwards returns the record the
    player has in memory. *)
Theorem set_interval_keeps_other_fields h v s :
  distinct_keys (settings s) ->
  let s' := set_interval h v s in
  distinct_keys (settings s')
  /\ dict_get "interval_minutes" (settings s') = Some (PInt v)
  /\ (forall k, k <> "interval_minutes" -> dict_get k (settings s') = dict_get k (settings s))
  /\ load_settings h (settings_file s') (files s') = Returns (settings s', files s', []).
Proof.
  intros Hkeys s'.
  destruct (set_interval_persists h v s) as (Hsettings & Hget & Hfile).
  fold s' in Hsettings, Hget, Hfile.
  assert (Hkeys' : distinct_keys (settings s'))
    by (rewrite Hsettings; now apply JsonRoundTrip.dict_set_distinct).
  split; [exact Hkeys' |]. split; [exact Hget |]. split.
  - intros k Hk. rewrite Hsettings. now apply JsonRoundTrip.dict_get_set_other.
  - apply (load_settings_existing h _ _ (Json.dump (settings s'))).
    + unfold s' at 1. rewrite settings_file_set_interval. exact Hfile.
    + now apply JsonRoundTrip.load_dump_distinct.
Qed.

Lemma set_interval_keeps_other_fields_witness :
  let s' := set_interval Demo.host0 3 Demo.waiting in
  distinct_keys (settings s')
  /\ dict_get "interval_minutes" (settings s') = Some (PInt 3)
  /\ (forall k, k <> "interval_minutes" -> dict_get k (settings s') = dict_get k (settings Demo.waiting))
  /\ load_settings Demo.host0 (settings_file s') (files s') = Returns (settings s', files s', []).
Proof.
  apply (set_interval_keeps_other_fields Demo.host0 3 Demo.waiting). cbn. auto.
Defined.

(** ** A tray session *)

Lemma icon_start_timer h s : icon (start_timer h s) = icon s.
Proof.
  destruct (running s) eqn:Hflag.
  - now rewrite start_timer_running.
  - now destruct (start_timer_stopped h s Hflag) as (_ & _ & _ & _ & _ & -> & _).
Qed.

Lemma run_entry_stop_timer h s : run_entry (stop_timer h s) = run_entry s.
Proof.
  unfold stop_timer. destruct (running s); [| reflexivity].
  cbn. destruct (timer_thread s); cbn; [| reflexivity].
  destruct (join_is_advance h flag_down_fuel 2000 n (set_running false s)) as [ms [[_ ->] | ->]];
    reflexivity.
Qed.

Lemma run_entry_start_timer h s : run_entry (start_timer h s) = run_entry s.
Proof. unfold start_timer. destruct (running s); reflexivity. Qed.

Lemma run_entry_set_interval h v s : run_entry (set_interval h v s) = run_entry s.
Proof.
  unfold set_interval. cbn [run_entry emit].
  change (running (save_settings h (set_settings (dict_set "interval_minutes" (PInt v) (settings s)) s)))
    with (running s).
  destruct (running s).
  - unfold sleep. rewrite run_entry_start_timer. cbn [run_entry advance tick emit set_threads].
    now rewrite run_entry_stop_timer.
  - unfold refresh_menu. cbn. now destruct (icon s).
Qed.

(** With the loop running, [set_interval] goes through the restart branch,
    which does not touch the menu. *)
Lemma icon_set_interval_running h v s :
  running s = true -> icon (set_interval h v s) = icon s.
Proof.
  intros Hflag. unfold set_interval. cbn [icon emit].
  change (running (save_settings h (set_settings (dict_set "interval_minutes" (PInt v) (settings s)) s)))
    with (running s).
  rewrite Hflag. unfold sleep. now rewrite icon_start_timer, icon_advance, icon_stop_timer.
Qed.

Lemma running_set_interval_running h v s :
  running s = true -> running (set_interval h v s) = true.
Proof.
  intros Hflag. unfold set_interval. cbn [running emit].
  change (running (save_settings h (set_settings (dict_set "interval_minutes" (PInt v) (settings s)) s)))
    with (running s).
  rewrite Hflag. apply running_start_timer.
Qed.

Lemma click_interval h item s :
  item <> ItemStartup -> click h item s = set_interval h (interval_of item) s.
Proof. destruct item; (congruence || reflexivity). Qed.

Lemma item_cases item : item = ItemStartup \/ item <> ItemStartup.
Proof. destruct item; (now left) || (right; discriminate). Qed.

Lemma toggle_startup_frame h s :
  let s' := toggle_startup h s in
  settings s' = settings s /\ files s' = files s /\ settings_file s' = settings_file s
  /\ running s' = running s /\ timer_thread s' = timer_thread s /\ threads s' = threads s
  /\ (icon s <> None -> icon s' <> None).
Proof.
  unfold toggle_startup, refresh_menu.
  destruct (run_key_access h); cbn; try (repeat split; auto; fail).
  destruct (is_startup_enabled h s); cbn; destruct (icon s); cbn; repeat split; auto; discriminate.
Qed.

Lemma set_interval_running_handle h v s :
  running s = true ->
  exists i, timer_thread (set_interval h v s) = Some i
            /\ S i = length (threads (set_interval h v s)).
Proof.
  intros Hflag. unfold set_interval. cbn [timer_thread threads emit].
  change (running (save_settings h (set_settings (dict_set "interval_minutes" (PInt v) (settings s)) s)))
    with (running s).
  rewrite Hflag.
  match goal with |- context [start_timer h ?x] =>
    assert (Hx : running x = false)
      by (unfold sleep; rewrite running_advance; apply running_stop_timer);
    destruct (start_timer_stopped h x Hx) as (_ & -> & -> & _);
    exists (length (threads x))
  end.
  split; [reflexivity |]. rewrite length_app. cbn. lia.
Qed.

Lemma tray_state_shape h s :
  tray_reachable h s ->
  running s = true
  /\ icon s <> None
  /\ exists i, timer_thread s = Some i /\ S i = length (threads s).
Proof.
  induction 1 as [fs entry s0 Hinit | item s Hreach IH | fuel ms s Hreach IH].
  - unfold init in Hinit.
    destruct (load_settings h "player_settings.json" fs) as [[[d fs'] evs] | e]; [| discriminate].
    injection Hinit as <-. cbn. split; [reflexivity |]. split; [discriminate |].
    exists 0. now split.
  - destruct IH as (Hflag & Hicon & i & Hhandle & Hlen).
    destruct (item_cases item) as [-> | Hitem].
    + cbn [click].
      destruct (toggle_startup_frame h s) as (_ & _ & _ & -> & -> & -> & Hic).
      split; [exact Hflag |]. split; [now apply Hic |]. now exists i.
    + rewrite click_interval by exact Hitem.
      split; [now apply running_set_interval_running |].
      split; [now rewrite icon_set_interval_running |].
      now apply set_interval_running_handle.
  - destruct IH as (Hflag & Hicon & i & Hhandle & Hlen).
    split; [exact Hflag |]. split; [exact Hicon |].
    exists i. split; [exact Hhandle |].
    unfold idle. now rewrite threads_advance, length_map.
Qed.

Lemma tray_waiting : tray_reachable Demo.host0 Demo.waiting.
Proof.
  assert (Hinit : init Demo.host0 "player_settings.json" (files Demo.waiting) None
                  = Returns (State Demo.cfg default_settings false None None
                                   (files Demo.waiting) None [] [] 0)) by reflexivity.
  pose proof (tray_idle Demo.host0 4 5300 _ (tray_started Demo.host0 _ _ _ Hinit)) as Hreach.
  assert (Heq : idle Demo.host0 4 5300
                  (run_systray Demo.host0
                     (State Demo.cfg default_settings false None None
                            (files Demo.waiting) None [] [] 0)) = Demo.waiting)
    by (vm_compute; reflexivity).
  now rewrite Heq in Hreach.
Qed.

(** X4. Throughout a tray session the [running] flag is set, the icon
    exists, and the handle names the thread that was started last: no menu
    entry short of Exit stops the loop for good. *)
Theorem tray_keeps_running h s :
  tray_reachable h s ->
  running s = true
  /\ icon s <> None
  /\ exists i, timer_thread s = Some i /\ S i = length (threads s).
Proof. apply tray_state_shape. Qed.

Lemma tray_keeps_running_witness :
  running Demo.waiting = true
  /\ icon Demo.waiting <> None
  /\ exists i, timer_thread Demo.waiting = Some i /\ S i = length (threads Demo.waiting).
Proof. apply (tray_keeps_running Demo.host0 Demo.waiting), tray_waiting. Defined.

(** X5. In a tray session a click on an interval entry stores the new
    interval in the record but leaves [icon.menu] as it was: the restart
    branch of [set_interval] is taken, and only the other branch rebuilds
    the menu.  The bullet keeps marking the old interval. *)
Theorem tray_interval_click_keeps_menu h s item :
  tray_reachable h s ->
  item <> ItemStartup ->
  dict_get "interval_minutes" (settings (click h item s)) = Some (PInt (interval_of item))
  /\ icon (click h item s) = icon s.
Proof.
  intros Hreach Hitem. rewrite click_interval by exact Hitem.
  destruct (tray_state_shape h s Hreach) as (Hflag & _).
  split.
  - now destruct (set_interval_persists h (interval_of item) s) as (_ & ? & _).
  - now apply icon_set_interval_running.
Qed.

Lemma tray_interval_click_keeps_menu_witness :
  dict_get "interval_minutes" (settings (click Demo.host0 ItemInterval3 Demo.waiting))
  = Some (PInt 3)
  /\ icon (click Demo.host0 ItemInterval3 Demo.waiting) = Some (Menu false false false true).
Proof.
  apply (tray_interval_click_keeps_menu Demo.host0 Demo.waiting ItemInterval3).
  - exact tray_waiting.
  - discriminate.
Defined.

Lemma is_startup_enabled_run_entry h s s' :
  run_entry s' = run_entry s -> is_startup_enabled h s' = is_startup_enabled h s.
Proof. intros Heq. unfold is_startup_enabled. now rewrite Heq. Qed.

(** X6. Throughout a tray session the first menu label agrees with the
    registry: it is ticked exactly when [is_startup_enabled] holds. *)
Theorem tray_menu_shows_startup_state h s :
  tray_reachable h s ->
  forall m, icon s = Some m -> startup_checked m = is_startup_enabled h s.
Proof.
  induction 1 as [fs entry s0 Hinit | item s Hreach IH | fuel ms s Hreach IH]; intros m Hm.
  - rewrite run_systray_steps, icon_start_timer in Hm. cbn in Hm. injection Hm as <-.
    cbn [startup_checked create_menu]. symmetry. apply is_startup_enabled_run_entry.
    now rewrite run_systray_steps, run_entry_start_timer.
  - destruct (item_cases item) as [-> | Hitem].
    + cbn [click] in *. unfold toggle_startup, refresh_menu in *.
      destruct (run_key_access h) eqn:Hacc; cbn [icon emit run_entry] in Hm |- *.
      * rewrite (is_startup_enabled_run_entry h s) by reflexivity. now apply IH.
      * rewrite (is_startup_enabled_run_entry h s) by reflexivity. now apply IH.
      * match type of Hm with icon (match icon ?x with _ => _ end) = _ =>
          destruct (icon x) eqn:Hix; cbn in Hm |- *
        end.
        -- injection Hm as <-. reflexivity.
        -- congruence.
    + rewrite click_interval in * by exact Hitem.
      destruct (tray_state_shape h s Hreach) as (Hflag & _).
      rewrite icon_set_interval_running in Hm by exact Hflag.
      rewrite (is_startup_enabled_run_entry h s) by apply run_entry_set_interval.
      now apply IH.
  - unfold idle in *. rewrite icon_advance in Hm.
    rewrite (is_startup_enabled_run_entry h s) by reflexivity. now apply IH.
Qed.

Lemma tray_menu_shows_startup_state_witness :
  startup_checked (Menu true false false true)
  = is_startup_enabled Demo.host0 (click Demo.host0 ItemStartup Demo.waiting).
Proof.
  apply (tray_menu_shows_startup_state Demo.host0 (click Demo.host0 ItemStartup Demo.waiting)).
  - apply tray_click, tray_waiting.
  - reflexivity.
Defined.

Lemma init_on_disk h s_file fs entry s0 :
  init h s_file fs entry = Returns s0 -> on_disk h s0.
Proof.
  unfold init, load_settings. intros Hinit.
  destruct (fs !! settings_path h s_file) as [text |] eqn:Hfile.
  - destruct (Json.load text) as [d |] eqn:Hparse; [| discriminate].
    injection Hinit as <-. split; cbn.
    + now apply (JsonRoundTrip.load_distinct text).
    + now exists text.
  - injection Hinit as <-. split; cbn.
    + auto.
    + exists (Json.dump default_settings). split; [apply lookup_insert_eq | exact load_default_text].
Qed.

Lemma on_disk_frame h s s' :
  settings s' = settings s -> files s' = files s -> settings_file s' = settings_file s ->
  on_disk h s -> on_disk h s'.
Proof. unfold on_disk. intros -> -> ->. auto. Qed.

(** X3. Throughout a tray session (start without arguments, then any
    clicks on the startup and interval entries with time passing in
    between) the settings file parses to the record held in memory, and the
    keys of that record are distinct. *)
Theorem tray_settings_on_disk h s :
  tray_reachable h s -> on_disk h s.
Proof.
  induction 1 as [fs entry s0 Hinit | item s Hreach IH | fuel ms s Hreach IH].
  - apply (on_disk_frame h s0); [| | | now apply (init_on_disk h "player_settings.json" fs entry)].
    + rewrite run_systray_steps. now rewrite settings_start_timer.
    + rewrite run_systray_steps. now rewrite files_start_timer.
    + rewrite run_systray_steps. now rewrite settings_file_start_timer.
  - destruct (item_cases item) as [-> | Hitem].
    + destruct (toggle_startup_frame h s) as (H1 & H2 & H3 & _).
      now apply (on_disk_frame h s).
    + rewrite click_interval by exact Hitem. destruct IH as [Hkeys _].
      destruct (set_interval_persists h (interval_of item) s) as (Hsettings & _ & Hfile).
      assert (Hkeys' : distinct_keys (settings (set_interval h (interval_of item) s)))
        by (rewrite Hsettings; now apply JsonRoundTrip.dict_set_distinct).
      split; [exact Hkeys' |].
      exists (Json.dump (settings (set_interval h (interval_of item) s))). split.
      * now rewrite settings_file_set_interval.
      * now apply JsonRoundTrip.load_dump_distinct.
  - now apply (on_disk_frame h s).
Qed.

Lemma tray_settings_on_disk_witness :
  on_disk Demo.host0 (click Demo.host0 ItemInterval5 Demo.waiting).
Proof.
  apply (tray_settings_on_disk Demo.host0 (click Demo.host0 ItemInterval5 Demo.waiting)).
  apply tray_click, tray_waiting.
Defined.

(** ** Stopping *)

Lemma clock_stop_timer h s :
  (clock s <= clock (stop_timer h s) <= clock s + 2000)%N.
Proof.
  unfold stop_timer. destruct (running s); [| lia].
  cbn [clock emit]. destruct (timer_thread (set_running false s)) as [i |]; [| cbn; lia].
  destruct (join_is_advance h flag_down_fuel 2000 i (set_running false s)) as [ms [[Hms ->] | ->]].
  - rewrite clock_advance. cbn. lia.
  - cbn. lia.
Qed.

Lemma clock_start_timer h s : clock (start_timer h s) = clock s.
Proof. unfold start_timer. destruct (running s); reflexivity. Qed.

(** X7. No command holds its caller for long: [stop_timer] and [on_quit]
    return within 2 seconds, [start_timer] at once, [set_interval] within
    2.5 seconds, whatever the loop thread is doing. *)
Theorem commands_return_in_time h v s :
  (clock s <= clock (stop_timer h s) <= clock s + 2000)%N
  /\ (clock s <= clock (on_quit h s) <= clock s + 2000)%N
  /\ clock (start_timer h s) = clock s
  /\ (clock s <= clock (set_interval h v s) <= clock s + 2500)%N.
Proof.
  split; [apply clock_stop_timer |]. split; [apply clock_stop_timer |].
  split; [apply clock_start_timer |].
  unfold set_interval. cbn [clock emit].
  change (running (save_settings h (set_settings (dict_set "interval_minutes" (PInt v) (settings s)) s)))
    with (running s).
  destruct (running s).
  - unfold sleep. rewrite clock_start_timer, clock_advance.
    match goal with |- context [stop_timer h ?x] =>
      pose proof (clock_stop_timer h x) as Hstop; change (clock x) with (clock s) in Hstop
    end.
    lia.
  - unfold refresh_menu. cbn. destruct (icon s); cbn; lia.
Qed.

Lemma count_if_lookup {A} (f : A -> bool) (l : list A) i x :
  l !! i = Some x -> f x = true -> 1 <= count_if f l.
Proof.
  revert i. induction l as [| y l IH]; intros [| i] Hi Hx; cbn in *; try discriminate.
  - injection Hi as ->. rewrite Hx. lia.
  - specialize (IH i Hi Hx). lia.
Qed.

(** X8. [stop_timer] called while the loop thread has more than two
    seconds of a tone left returns after exactly two seconds with the flag
    cleared and the thread still inside the tone; a [start_timer] right
    after it leaves that thread in place next to the new one. *)
Theorem stop_timer_gives_up_on_long_tone h s i w aft secs :
  running s = true ->
  timer_thread s = Some i ->
  threads s !! i = Some (InPlay w aft secs) ->
  (2000 < w)%N ->
  running (stop_timer h s) = false
  /\ clock (stop_timer h s) = (clock s + 2000)%N
  /\ threads (stop_timer h s) !! i = Some (InPlay (w - 2000)%N aft secs)
  /\ running (start_timer h (stop_timer h s)) = true
  /\ threads (start_timer h (stop_timer h s)) !! i = Some (InPlay (w - 2000)%N aft secs)
  /\ 2 <= live_threads (start_timer h (stop_timer h s)).
Proof.
  intros Hflag Hhandle Hthread Hw.
  rewrite (stop_timer_running h s i _ Hflag Hhandle Hthread).
  cbn [wind_time]. replace (N.min 2000 w) with 2000%N by lia.
  set (x := emit [Log LTimerStopped] (advance h flag_down_fuel 2000 (set_running false s))).
  assert (Hxi : threads x !! i = Some (InPlay (w - 2000)%N aft secs)).
  { unfold x. cbn [threads emit].
    rewrite threads_advance_flag_down by (reflexivity || (unfold flag_down_fuel; lia)).
    rewrite lookup_map. cbn [threads set_running]. rewrite Hthread. cbn.
    assert (Hle : (w <=? 2000)%N = false) by (apply N.leb_gt; lia).
    now rewrite Hle. }
  assert (Hxflag : running x = false) by reflexivity.
  destruct (start_timer_stopped h x Hxflag) as (Hrun & _ & Hthreads & _).
  split; [reflexivity |]. split; [reflexivity |]. split; [exact Hxi |].
  split; [exact Hrun |]. split.
  - rewrite Hthreads. rewrite lookup_app_l; [exact Hxi |].
    apply lookup_lt_Some in Hxi. exact Hxi.
  - unfold live_threads. rewrite Hthreads, count_if_app.
    change (count_if is_live [AtWhile]) with 1.
    pose proof (count_if_lookup is_live (threads x) i _ Hxi eq_refl). lia.
Qed.

Lemma stop_timer_gives_up_on_long_tone_witness :
  running (stop_timer Demo.host0 Demo.mid_tone) = false
  /\ clock (stop_timer Demo.host0 Demo.mid_tone) = (clock Demo.mid_tone + 2000)%N
  /\ threads (stop_timer Demo.host0 Demo.mid_tone) !! 0 = Some (InPlay (4000 - 2000)%N [Log LPlayed] 180)
  /\ running (start_timer Demo.host0 (stop_timer Demo.host0 Demo.mid_tone)) = true
  /\ threads (start_timer Demo.host0 (stop_timer Demo.host0 Demo.mid_tone)) !! 0
     = Some (InPlay (4000 - 2000)%N [Log LPlayed] 180)
  /\ 2 <= live_threads (start_timer Demo.host0 (stop_timer Demo.host0 Demo.mid_tone)).
Proof.
  apply (stop_timer_gives_up_on_long_tone Demo.host0 Demo.mid_tone 0 4000%N [Log LPlayed] 180);
    (reflexivity || lia).
Defined.

(** ** One playback attempt, in full *)

(** X9. [play_audio] returns [True] exactly when the audio path resolves,
    the file exists and the audio calls complete. *)
Theorem play_audio_succeeds_iff h s :
  returned (play_audio h s) = true
  <-> exists p,
        get_audio_path h s = Returns p
        /\ path_exists s p = true
        /\ ends (soundfile h p) = Completes.
Proof.
  unfold play_audio. split.
  - destruct (get_audio_path h s) as [p | e]; [| discriminate].
    destruct (path_exists s p) eqn:Hex; [| discriminate]. cbn.
    destruct (ends (soundfile h p)) eqn:Hend; try discriminate.
    intros _. exists p. auto.
  - intros (p & -> & -> & Hend). cbn. now rewrite Hend.
Qed.

Lemma play_audio_notifications h s :
  count_if is_notification (play_events (play_audio h s))
  = if returned (play_audio h s) then 0
    else match icon s with Some _ => 1 | None => 0 end.
Proof.
  unfold play_audio, play_events, notify_if_icon.
  destruct (get_audio_path h s) as [p | e]; cbn.
  - destruct (path_exists s p); cbn.
    + destruct (ends (soundfile h p)); cbn; destruct (icon s); reflexivity.
    + destruct (icon s); reflexivity.
  - destruct (icon s); reflexivity.
Qed.

(** X10. One call of [play_audio] emits no notification when it succeeds
    or when there is no icon, and exactly one when it fails with the icon
    present. *)
Theorem play_audio_notifies_at_most_once h s :
  count_if is_notification (play_events (play_audio h s))
  = if returned (play_audio h s) then 0
    else match icon s with Some _ => 1 | None => 0 end.
Proof. apply play_audio_notifications. Qed.

(** X11. A [tone_file] that is present but is not text (a number, a
    boolean, null) makes path resolution raise [TypeError]; [play_audio]
    catches it, logs it, notifies if it can and returns [False] without
    looking for any file. *)
Theorem play_audio_tone_not_text h s v :
  dict_get "tone_file" (settings s) = Some v ->
  (forall name, v <> PStr name) ->
  get_audio_path h s = Raises TypeError
  /\ play_audio h s
     = Playback (Log (LErrorPlaying TypeError) :: notify_if_icon s (NError TypeError))
                0%N [] false.
Proof.
  intros Hv Hnot.
  assert (Hpath : get_audio_path h s = Raises TypeError).
  { unfold get_audio_path, dict_get_default. rewrite Hv.
    destruct v; try reflexivity. now destruct (Hnot s0). }
  split; [exact Hpath |]. unfold play_audio. now rewrite Hpath.
Qed.

Lemma play_audio_tone_not_text_witness :
  get_audio_path Demo.host0 Demo.odd_tone = Raises TypeError
  /\ play_audio Demo.host0 Demo.odd_tone
     = Playback (Log (LErrorPlaying TypeError) :: notify_if_icon Demo.odd_tone (NError TypeError))
                0%N [] false.
Proof.
  apply (play_audio_tone_not_text Demo.host0 Demo.odd_tone (PInt 5)); [reflexivity | discriminate].
Defined.

(** ** The schedule of the loop *)

Lemma timer_loop_cycles h s secs :
  running s = true ->
  loop_rounds h s = Returns secs ->
  forall k fuel ms,
    timer_loop h s (k * (2 * secs + 3) + fuel)
               (N.of_nat k * (blocking (play_audio h s) + 1000 * N.of_nat secs) + ms)%N AtWhile
    = let '(t, evs, rest) := timer_loop h s fuel ms AtWhile in
      (t, concat (replicate k (play_events (play_audio h s))) ++ evs, rest).
Proof.
  intros Hflag Hrounds. induction k as [| k IH]; intros fuel ms.
  - cbn [replicate concat Nat.mul Nat.add app].
    replace (N.of_nat 0 * (blocking (play_audio h s) + 1000 * N.of_nat secs) + ms)%N with ms by lia.
    now destruct (timer_loop h s fuel ms AtWhile) as [[t evs] rest].
  - replace (S k * (2 * secs + 3) + fuel) with (2 * secs + 3 + (k * (2 * secs + 3) + fuel)) by lia.
    replace (N.of_nat (S k) * (blocking (play_audio h s) + 1000 * N.of_nat secs) + ms)%N
      with (blocking (play_audio h s) + 1000 * N.of_nat secs
            + (N.of_nat k * (blocking (play_audio h s) + 1000 * N.of_nat secs) + ms))%N by lia.
    rewrite (timer_loop_cycle h s Hflag secs Hrounds), IH.
    destruct (timer_loop h s fuel ms AtWhile) as [[t evs] rest].
    cbn [replicate concat]. now rewrite <- app_assoc.
Qed.

(** X12. With the flag set and an integer interval [m >= 0], [k] cycles
    of the loop take [k] times (the time one attempt blocks plus [m * 60]
    seconds) and emit the events of [k] attempts: the period of the loop is
    the interval plus the length of the tone. *)
Theorem loop_period_is_tone_plus_interval h s m :
  running s = true ->
  dict_get_default "interval_minutes" (PInt 10) (settings s) = PInt m ->
  (0 <= m)%Z ->
  forall k fuel ms,
    timer_loop h s (k * (2 * Z.to_nat (m * 60) + 3) + fuel)
               (N.of_nat k * (blocking (play_audio h s) + 1000 * Z.to_N (m * 60)) + ms)%N AtWhile
    = let '(t, evs, rest) := timer_loop h s fuel ms AtWhile in
      (t, concat (replicate k (play_events (play_audio h s))) ++ evs, rest).
Proof.
  intros Hflag Hread Hm k fuel ms.
  assert (Hrounds : loop_rounds h s = Returns (Z.to_nat (m * 60)))
    by (unfold loop_rounds; now rewrite Hread).
  replace (Z.to_N (m * 60)) with (N.of_nat (Z.to_nat (m * 60))) by lia.
  now apply timer_loop_cycles.
Qed.

Lemma loop_period_is_tone_plus_interval_witness :
  timer_loop Demo.host0 Demo.no_tone (2 * (2 * 600 + 3) + 2) (2 * (0 + 1000 * 600))%N AtWhile
  = (AtFor 600,
     [Log (LAudioNotFound "./tone.wav"); Notify (NAudioNotFound "./tone.wav");
      Log (LAudioNotFound "./tone.wav"); Notify (NAudioNotFound "./tone.wav");
      Log (LAudioNotFound "./tone.wav"); Notify (NAudioNotFound "./tone.wav")], 0%N).
Proof.
  pose proof (loop_period_is_tone_plus_interval Demo.host0 Demo.no_tone 10 eq_refl eq_refl
                ltac:(lia) 2 2 0%N) as H.
  exact H.
Defined.

(** X13. An interval of zero or less gives [range] nothing to count: the
    loop never sleeps, and [k] attempts follow each other in only the time
    the attempts themselves block. *)
Theorem non_positive_interval_spins h s m :
  running s = true ->
  dict_get_default "interval_minutes" (PInt 10) (settings s) = PInt m ->
  (m <= 0)%Z ->
  loop_rounds h s = Returns 0
  /\ forall k fuel ms,
       timer_loop h s (k * 3 + fuel)
                  (N.of_nat k * blocking (play_audio h s) + ms)%N AtWhile
       = let '(t, evs, rest) := timer_loop h s fuel ms AtWhile in
         (t, concat (replicate k (play_events (play_audio h s))) ++ evs, rest).
Proof.
  intros Hflag Hread Hm.
  assert (Hrounds : loop_rounds h s = Returns 0).
  { unfold loop_rounds. rewrite Hread. cbn. f_equal. lia. }
  split; [exact Hrounds |]. intros k fuel ms.
  pose proof (timer_loop_cycles h s 0 Hflag Hrounds k fuel ms) as H.
  replace (k * (2 * 0 + 3) + fuel) with (k * 3 + fuel) in H by lia.
  replace (N.of_nat k * (blocking (play_audio h s) + 1000 * N.of_nat 0) + ms)%N
    with (N.of_nat k * blocking (play_audio h s) + ms)%N in H by lia.
  exact H.
Qed.

Lemma non_positive_interval_spins_witness :
  loop_rounds Demo.host0 Demo.zero_interval = Returns 0
  /\ timer_loop Demo.host0 Demo.zero_interval (3 * 3 + 0) 0%N AtWhile
     = (AtWhile,
        [Log (LAudioNotFound "./tone.wav"); Log (LAudioNotFound "./tone.wav");
         Log (LAudioNotFound "./tone.wav")], 0%N).
Proof.
  destruct (non_positive_interval_spins Demo.host0 Demo.zero_interval 0 eq_refl eq_refl ltac:(lia))
    as [Hrounds Hspin].
  split; [exact Hrounds |]. exact (Hspin 3 0 0%N).
Defined.

(** X14. When [interval_minutes] is null the multiplication at the top of
    the cycle raises [TypeError] and the exception leaves [timer_loop]
    before any attempt: the thread is dead, [running] stays set, and
    [start_timer] therefore does nothing. *)
Theorem null_interval_ends_loop h s i :
  running s = true ->
  dict_get "interval_minutes" (settings s) = Some PNone ->
  timer_thread s = Some i ->
  threads s !! i = Some AtWhile ->
  forall fuel ms,
    py_times_60 (dict_get_default "interval_minutes" (PInt 10) (settings s)) = Raises TypeError
    /\ timer_loop h s (S fuel) ms AtWhile = (Died TypeError, [], ms)
    /\ threads (idle h (S fuel) ms s) !! i = Some (Died TypeError)
    /\ running (idle h (S fuel) ms s) = true
    /\ start_timer h (idle h (S fuel) ms s) = idle h (S fuel) ms s.
Proof.
  intros Hflag Hnull Hhandle Hthread fuel ms.
  assert (Hmul : py_times_60 (dict_get_default "interval_minutes" (PInt 10) (settings s))
                 = Raises TypeError)
    by (unfold dict_get_default; now rewrite Hnull).
  assert (Hrounds : loop_rounds h s = Raises TypeError)
    by (unfold loop_rounds; now rewrite Hmul).
  assert (Hstep : timer_loop h s (S fuel) ms AtWhile = (Died TypeError, [], ms))
    by (cbn [timer_loop]; now rewrite Hflag, Hrounds).
  split; [exact Hmul |]. split; [exact Hstep |]. split; [| split].
  - unfold idle. rewrite threads_advance, lookup_map, Hthread. cbn [option_map].
    now rewrite Hstep.
  - exact Hflag.
  - apply start_timer_running. exact Hflag.
Qed.

Lemma null_interval_ends_loop_witness :
  py_times_60 (dict_get_default "interval_minutes" (PInt 10) (settings Demo.null_started))
  = Raises TypeError
  /\ timer_loop Demo.host0 Demo.null_started 1 0%N AtWhile = (Died TypeError, [], 0%N)
  /\ threads (idle Demo.host0 1 0 Demo.null_started) !! 0 = Some (Died TypeError)
  /\ running (idle Demo.host0 1 0 Demo.null_started) = true
  /\ start_timer Demo.host0 (idle Demo.host0 1 0 Demo.null_started)
     = idle Demo.host0 1 0 Demo.null_started.
Proof.
  apply (null_interval_ends_loop Demo.host0 Demo.null_started 0); reflexivity.
Defined.

(** X15. [set_interval] on a running player whose only live loop thread
    blocks for at most 2.5 seconds more (anywhere in its wait, or at the end
    of a tone) replaces the loop: afterwards exactly one thread is alive, it
    is the new one, and it makes one attempt and then stays in the wait of
    [v * 60] seconds. *)
Theorem set_interval_replaces_waiting_loop h v s i t :
  running s = true ->
  timer_thread s = Some i ->
  threads s !! i = Some t ->
  (wind_time t <= 2500)%N ->
  Forall (fun t' => is_live t' = false \/ t' = t) (threads s) ->
  let s' := set_interval h v s in
  let n := Z.to_nat (v * 60) in
  running s' = true
  /\ timer_thread s' = Some (length (threads s))
  /\ threads s' !! length (threads s) = Some AtWhile
  /\ live_threads s' = 1
  /\ loop_rounds h s' = Returns n
  /\ (forall j r fuel,
        j < n -> (r < 1000)%N -> 2 * j + 4 <= fuel ->
        timer_loop h s' fuel (blocking (play_audio h s') + 1000 * N.of_nat j + r)%N AtWhile
        = (InSleep (1000 - r)%N (n - j - 1), play_events (play_audio h s'), 0%N)).
Proof. apply set_interval_restarts. Qed.

Lemma set_interval_replaces_waiting_loop_witness :
  let s' := set_interval Demo.host0 3 Demo.waiting in
  running s' = true
  /\ timer_thread s' = Some 1
  /\ threads s' !! 1 = Some AtWhile
  /\ live_threads s' = 1
  /\ loop_rounds Demo.host0 s' = Returns 180.
Proof.
  destruct (set_interval_replaces_waiting_loop Demo.host0 3 Demo.waiting 0 (InSleep 700 599))
    as (H1 & H2 & H3 & H4 & H5 & _).
  - reflexivity.
  - reflexivity.
  - reflexivity.
  - cbn. lia.
  - constructor; [right; reflexivity | constructor].
  - cbv zeta. auto.
Defined.

(** ** The entry point *)

Lemma files_test_play h s : files (fst (test_play h s)) = files s.
Proof. reflexivity. Qed.

(** X16. [main] builds the player before it looks at its arguments: with
    no settings file present every mode, [--help] included, succeeds and
    leaves the default settings file behind. *)
Theorem main_creates_settings_in_every_mode h argv (fs : gmap string string) entry :
  fs !! settings_path h "player_settings.json" = None ->
  exists r,
    main h argv fs entry = Returns r
    /\ settings (final_state r) = default_settings
    /\ files (final_state r) !! settings_path h "player_settings.json" = Some default_text.
Proof.
  intros Hnone. unfold main, init, load_settings. rewrite Hnone.
  destruct (mode_of argv).
  - eexists. split; [reflexivity |]. cbn [final_state test_play settings files tick emit].
    split; [reflexivity |].
    rewrite lookup_insert_eq. now rewrite dump_default_settings.
  - eexists. split; [reflexivity |]. cbn [final_state settings files].
    split; [reflexivity |].
    rewrite lookup_insert_eq. now rewrite dump_default_settings.
  - eexists. split; [reflexivity |]. cbn [final_state].
    rewrite run_systray_steps, settings_start_timer, files_start_timer.
    cbn [settings files set_icon].
    split; [reflexivity |].
    rewrite lookup_insert_eq. now rewrite dump_default_settings.
Qed.

Lemma main_creates_settings_in_every_mode_witness :
  exists r,
    main Demo.host0 ["soundbar_tone_player.py"; "--help"] ∅ None = Returns r
    /\ settings (final_state r) = default_settings
    /\ files (final_state r) !! settings_path Demo.host0 "player_settings.json" = Some default_text.
Proof.
  apply (main_creates_settings_in_every_mode Demo.host0 ["soundbar_tone_player.py"; "--help"] ∅ None).
  reflexivity.
Defined.

Lemma init_shape h s_file fs entry s0 :
  init h s_file fs entry = Returns s0 ->
  running s0 = false /\ timer_thread s0 = None /\ icon s0 = None /\ threads s0 = []
  /\ count_if is_notification (trace s0) = 0.
Proof.
  unfold init, load_settings. intros Hinit.
  destruct (fs !! settings_path h s_file) as [text |].
  - destruct (Json.load text); [| discriminate]. injection Hinit as <-. now cbn.
  - injection Hinit as <-. now cbn.
Qed.

(** X17. In the test and help modes [main] starts no thread, leaves the
    flag clear, creates no icon and emits no notification. *)
Theorem main_test_and_help_stay_quiet h argv fs entry r :
  mode_of argv <> TrayMode ->
  main h argv fs entry = Returns r ->
  running (final_state r) = false
  /\ timer_thread (final_state r) = None
  /\ threads (final_state r) = []
  /\ icon (final_state r) = None
  /\ count_if is_notification (trace (final_state r)) = 0.
Proof.
  intros Hmode Hmain. unfold main in Hmain.
  destruct (init h "player_settings.json" fs entry) as [s0 | e] eqn:Hinit; [| discriminate].
  destruct (init_shape h _ fs entry s0 Hinit) as (Hflag & Hhandle & Hicon & Hthreads & Hquiet).
  destruct (mode_of argv); [| | congruence].
  - unfold test_play in Hmain. injection Hmain as <-. cbn.
    repeat (split; [assumption |]).
    rewrite count_if_app, Hquiet, play_audio_notifications, Hicon.
    now destruct (returned (play_audio h s0)).
  - injection Hmain as <-. cbn. auto.
Qed.

Lemma main_test_and_help_stay_quiet_witness :
  running (final_state Runs.test_run) = false
  /\ timer_thread (final_state Runs.test_run) = None
  /\ threads (final_state Runs.test_run) = []
  /\ icon (final_state Runs.test_run) = None
  /\ count_if is_notification (trace (final_state Runs.test_run)) = 0.
Proof.
  apply (main_test_and_help_stay_quiet Demo.host0 ["soundbar_tone_player.py"; "-t"] ∅ None
           Runs.test_run).
  - discriminate.
  - reflexivity.
Defined.

(** X18. Whenever the second word of the command line is none of
    [--test], [-t], [--help], [-h] (or is missing), [main] enters the tray
    with the menu built from the loaded record, the flag set, exactly one
    loop thread at the top of [timer_loop], and the start announced. *)
Theorem main_tray_starts_one_loop h argv fs entry r :
  mode_of argv = TrayMode ->
  main h argv fs entry = Returns r ->
  exists s0,
    init h "player_settings.json" fs entry = Returns s0
    /\ running (final_state r) = true
    /\ timer_thread (final_state r) = Some 0
    /\ threads (final_state r) = [AtWhile]
    /\ icon (final_state r) = Some (create_menu h s0)
    /\ trace (final_state r)
       = trace s0 ++ [Log LTimerStarted;
                      Notify (NStarted (dict_get_default "interval_minutes" (PInt 10) (settings s0)))].
Proof.
  intros Hmode Hmain. unfold main in Hmain. rewrite Hmode in Hmain.
  destruct (init h "player_settings.json" fs entry) as [s0 | e] eqn:Hinit; [| discriminate].
  injection Hmain as <-. exists s0. split; [reflexivity |].
  destruct (init_shape h _ fs entry s0 Hinit) as (Hflag & Hhandle & Hicon & Hthreads & _).
  cbn [final_state]. rewrite run_systray_steps.
  destruct (start_timer_stopped h (set_icon (Some (create_menu h s0)) s0) Hflag)
    as (H1 & H2 & H3 & _ & _ & H6 & _ & H8).
  cbn [threads settings trace icon set_icon] in *. rewrite Hthreads in *.
  repeat (split; [assumption |]). exact H8.
Qed.

Lemma main_tray_starts_one_loop_witness :
  exists s0,
    init Demo.host0 "player_settings.json" ∅ None = Returns s0
    /\ running (final_state Runs.tray_run) = true
    /\ timer_thread (final_state Runs.tray_run) = Some 0
    /\ threads (final_state Runs.tray_run) = [AtWhile]
    /\ icon (final_state Runs.tray_run) = Some (create_menu Demo.host0 s0)
    /\ trace (final_state Runs.tray_run)
       = trace s0 ++ [Log LTimerStarted;
                      Notify (NStarted (dict_get_default "interval_minutes" (PInt 10) (settings s0)))].
Proof.
  apply (main_tray_starts_one_loop Demo.host0
           ["soundbar_tone_player.py"; "--verbose"; "--test"] ∅ None Runs.tray_run).
  - reflexivity.
  - reflexivity.
Defined.

(** ** What the commands leave alone *)

Lemma length_threads_stop_timer h s :
  length (threads (stop_timer h s)) = length (threads s).
Proof.
  unfold stop_timer. destruct (running s); [| reflexivity].
  cbn [threads emit]. destruct (timer_thread (set_running false s)) as [i |]; [| reflexivity].
  destruct (join_is_advance h flag_down_fuel 2000 i (set_running false s)) as [ms [[_ ->] | ->]].
  - now rewrite threads_advance, length_map.
  - reflexivity.
Qed.

(** X19. In every state reached from [__init__] by [start_timer],
    [stop_timer] and [set_interval] the handle, when there is one, names the
    last thread of the table, and the table is empty while there is none:
    the [join] in [stop_timer] always finds its thread. *)
Theorem handle_names_last_thread h s :
  reachable h s ->
  length (threads s) = match timer_thread s with Some i => S i | None => 0 end.
Proof.
  induction 1 as [s_file fs entry s Hinit | c s Hreach IH].
  - destruct (init_shape h s_file fs entry s Hinit) as (_ & -> & _ & -> & _). reflexivity.
  - destruct c as [| | v]; cbn [exec].
    + destruct (running s) eqn:Hflag.
      * now rewrite start_timer_running.
      * destruct (start_timer_stopped h s Hflag) as (_ & -> & -> & _).
        rewrite length_app. cbn. lia.
    + now rewrite length_threads_stop_timer, timer_thread_stop_timer.
    + unfold set_interval. cbn [threads timer_thread emit].
      change (running (save_settings h (set_settings (dict_set "interval_minutes" (PInt v) (settings s)) s)))
        with (running s).
      destruct (running s) eqn:Hflag.
      * match goal with |- context [start_timer h ?x] =>
          assert (Hx : running x = false)
            by (unfold sleep; rewrite running_advance; apply running_stop_timer);
          destruct (start_timer_stopped h x Hx) as (_ & -> & -> & _)
        end.
        rewrite length_app. cbn. lia.
      * unfold refresh_menu. cbn. destruct (icon s); cbn; exact IH.
Qed.

Lemma handle_names_last_thread_witness :
  length (threads (exec Demo.host0 (SetInterval 5) (exec Demo.host0 Start Demo.fresh)))
  = match timer_thread (exec Demo.host0 (SetInterval 5) (exec Demo.host0 Start Demo.fresh)) with
    | Some i => S i
    | None => 0
    end.
Proof.
  apply (handle_names_last_thread Demo.host0).
  do 2 apply reach_exec. apply (reach_init Demo.host0 Demo.cfg ∅ None). reflexivity.
Defined.

(** X20. [start_timer], [stop_timer] and [set_interval] never touch the
    registry entry, never change which file is the settings file and never
    write any other file; the startup toggle never touches the files or the
    record. *)
Theorem commands_keep_to_their_own h c item s :
  run_entry (exec h c s) = run_entry s
  /\ settings_file (exec h c s) = settings_file s
  /\ (forall p, p <> settings_path h (settings_file s) ->
        files (exec h c s) !! p = files s !! p)
  /\ files (click h ItemStartup s) = files s
  /\ settings (click h ItemStartup s) = settings s
  /\ (item <> ItemStartup -> run_entry (click h item s) = run_entry s).
Proof.
  split; [| split; [| split; [| split; [| split]]]].
  - destruct c; cbn [exec];
      [apply run_entry_start_timer | apply run_entry_stop_timer | apply run_entry_set_interval].
  - destruct c; cbn [exec];
      [apply settings_file_start_timer | apply settings_file_stop_timer
       | apply settings_file_set_interval].
  - intros p Hp. destruct c as [| | v]; cbn [exec].
    + now rewrite files_start_timer.
    + now rewrite files_stop_timer.
    + unfold set_interval. cbn [files emit].
      change (running (save_settings h (set_settings (dict_set "interval_minutes" (PInt v) (settings s)) s)))
        with (running s).
      destruct (running s).
      * unfold sleep. rewrite files_start_timer, files_advance, files_stop_timer.
        cbn. now rewrite lookup_insert_ne.
      * unfold refresh_menu. cbn. destruct (icon s); cbn; now rewrite lookup_insert_ne.
  - now destruct (toggle_startup_frame h s) as (_ & ? & _).
  - now destruct (toggle_startup_frame h s) as (? & _).
  - intros Hitem. rewrite click_interval by exact Hitem. apply run_entry_set_interval.
Qed.

Lemma commands_keep_to_their_own_witness :
  files (exec Demo.host0 (SetInterval 5) Demo.with_tone) !! "./tone.wav"
  = files Demo.with_tone !! "./tone.wav"
  /\ run_entry (click Demo.host0 ItemInterval5 Demo.with_tone) = run_entry Demo.with_tone.
Proof.
  destruct (commands_keep_to_their_own Demo.host0 (SetInterval 5) ItemInterval5 Demo.with_tone)
    as (_ & _ & Hfiles & _ & _ & Hentry).
  split.
  - apply Hfiles. discriminate.
  - apply Hentry. discriminate.
Defined.
